(** * ingest.py: upload, extract, split and count

    A shallow embedding of [src/ingest.py].  The module is a FastAPI
    service with one handler, [load_split_count], which copies an upload
    to a temporary file, extracts its text through an external loader,
    counts tokens with an external tokenizer and, when the text is longer
    than [chunk_size] tokens, splits it with an external splitter and
    labels every chunk with an id derived from a process-wide MD5 object.

    Conventions of the embedding:
    - a Python [str] is the list of its Unicode code points ([list N]);
      [bytes] is [list byte];
    - Python [int] is [Z];
    - module-level mutable objects, the file system, standard output and
      the calls made to external libraries live in a [world] that every
      function threads through; exceptions are the left summand of the
      result;
    - the libraries the module imports but does not define (tokenizer,
      text splitter, document loader, libmagic, gzip, tempfile naming) are
      fields of a record [externals]; [hashlib.md5] is implemented in full
      since identifiers are compared concretely. *)

From stdpp Require Import base list strings gmap pretty.
From Stdlib Require Import ZArith.
From Stdlib.Strings Require Import Byte Ascii.

Local Open Scope Z_scope.

(** ** Python strings and bytes *)

(** A string literal of the source, as code points. *)
Definition lit (s : string) : list N :=
  N_of_ascii <$> String.list_ascii_of_string s.

Global Instance byte_eq_decision : EqDecision byte := Byte.byte_eq_dec.

Definition byte_of_N (n : N) : byte :=
  default x00 (Byte.of_N (n mod 256)%N).

Definition is_surrogate (c : N) : bool :=
  ((0xD800 <=? c) && (c <=? 0xDFFF))%N.

(** [str.encode('utf-8')] on one code point.  Lone surrogates cannot be
    encoded (UnicodeEncodeError); values above U+10FFFF are not Python
    characters at all and are rejected likewise. *)
Definition utf8_encode_char (c : N) : option (list byte) :=
  (if c <? 0x80 then Some [byte_of_N c]
   else if c <? 0x800 then
     Some [byte_of_N (N.lor 0xC0 (N.shiftr c 6));
           byte_of_N (N.lor 0x80 (N.land c 0x3F))]
   else if c <? 0x10000 then
     if is_surrogate c then None
     else
       Some [byte_of_N (N.lor 0xE0 (N.shiftr c 12));
             byte_of_N (N.lor 0x80 (N.land (N.shiftr c 6) 0x3F));
             byte_of_N (N.lor 0x80 (N.land c 0x3F))]
   else if c <? 0x110000 then
     Some [byte_of_N (N.lor 0xF0 (N.shiftr c 18));
           byte_of_N (N.lor 0x80 (N.land (N.shiftr c 12) 0x3F));
           byte_of_N (N.lor 0x80 (N.land (N.shiftr c 6) 0x3F));
           byte_of_N (N.lor 0x80 (N.land c 0x3F))]
   else None)%N.

Fixpoint utf8_encode (s : list N) : option (list byte) :=
  match s with
  | [] => Some []
  | c :: s' =>
      match utf8_encode_char c, utf8_encode s' with
      | Some bs, Some bs' => Some (bs ++ bs')
      | _, _ => None
      end
  end.

(** ** hashlib.md5 (RFC 1321) *)

Module hashlib.

Definition mask32 (x : Z) : Z := Z.land x 0xffffffff.
Definition add32 (x y : Z) : Z := mask32 (x + y).
Definition not32 (x : Z) : Z := Z.lxor x 0xffffffff.
Definition rotl32 (x c : Z) : Z :=
  mask32 (Z.lor (Z.shiftl x c) (Z.shiftr x (32 - c))).

Definition S_table : list Z :=
  [ 7; 12; 17; 22; 7; 12; 17; 22; 7; 12; 17; 22; 7; 12; 17; 22;
    5;  9; 14; 20; 5;  9; 14; 20; 5;  9; 14; 20; 5;  9; 14; 20;
    4; 11; 16; 23; 4; 11; 16; 23; 4; 11; 16; 23; 4; 11; 16; 23;
    6; 10; 15; 21; 6; 10; 15; 21; 6; 10; 15; 21; 6; 10; 15; 21 ].

Definition K_table : list Z :=
  [ 0xd76aa478; 0xe8c7b756; 0x242070db; 0xc1bdceee;
    0xf57c0faf; 0x4787c62a; 0xa8304613; 0xfd469501;
    0x698098d8; 0x8b44f7af; 0xffff5bb1; 0x895cd7be;
    0x6b901122; 0xfd987193; 0xa679438e; 0x49b40821;
    0xf61e2562; 0xc040b340; 0x265e5a51; 0xe9b6c7aa;
    0xd62f105d; 0x02441453; 0xd8a1e681; 0xe7d3fbc8;
    0x21e1cde6; 0xc33707d6; 0xf4d50d87; 0x455a14ed;
    0xa9e3e905; 0xfcefa3f8; 0x676f02d9; 0x8d2a4c8a;
    0xfffa3942; 0x8771f681; 0x6d9d6122; 0xfde5380c;
    0xa4beea44; 0x4bdecfa9; 0xf6bb4b60; 0xbebfbc70;
    0x289b7ec6; 0xeaa127fa; 0xd4ef3085; 0x04881d05;
    0xd9d4d039; 0xe6db99e5; 0x1fa27cf8; 0xc4ac5665;
    0xf4292244; 0x432aff97; 0xab9423a7; 0xfc93a039;
    0x655b59c3; 0x8f0ccc92; 0xffeff47d; 0x85845dd1;
    0x6fa87e4f; 0xfe2ce6e0; 0xa3014314; 0x4e0811a1;
    0xf7537e82; 0xbd3af235; 0x2ad7d2bb; 0xeb86d391 ].

(** The four chaining words A, B, C, D. *)
Record chaining := Chain { wa : Z; wb : Z; wc : Z; wd : Z }.

Definition chain0 : chaining :=
  Chain 0x67452301 0xefcdab89 0x98badcfe 0x10325476.

(** The round function and the message-word index of operation [i]. *)
Definition round_fg (i b c d : Z) : Z * Z :=
  if i <? 16 then (Z.lor (Z.land b c) (Z.land (not32 b) d), i)
  else if i <? 32 then
    (Z.lor (Z.land d b) (Z.land (not32 d) c), (5 * i + 1) mod 16)
  else if i <? 48 then (Z.lxor (Z.lxor b c) d, (3 * i + 5) mod 16)
  else (Z.lxor c (Z.lor b (not32 d)), (7 * i) mod 16).

Definition step (m : list Z) (w : chaining) (i : nat) : chaining :=
  let '(Chain a b c d) := w in
  let '(f, g) := round_fg (Z.of_nat i) b c d in
  let f' := add32 (add32 (add32 f a) (nth i K_table 0)) (nth (Z.to_nat g) m 0) in
  Chain d (add32 b (rotl32 f' (nth i S_table 0))) b c.

(** Little-endian words from bytes and back. *)
Fixpoint le_word (bs : list Z) : Z :=
  match bs with
  | [] => 0
  | b :: bs' => b + 256 * le_word bs'
  end.

Fixpoint le_bytes (n : nat) (x : Z) : list Z :=
  match n with
  | O => []
  | S n' => x mod 256 :: le_bytes n' (x / 256)
  end.

(** Cut a list into consecutive groups of [k] elements. *)
Fixpoint groups {A} (k fuel : nat) (l : list A) : list (list A) :=
  match fuel with
  | O => []
  | S fuel' =>
      match l with
      | [] => []
      | _ => take k l :: groups k fuel' (drop k l)
      end
  end.

Definition compress (w : chaining) (block : list Z) : chaining :=
  let m := le_word <$> groups 4 16 block in
  let '(Chain a b c d) := foldl (step m) w (seq 0 64) in
  Chain (add32 (wa w) a) (add32 (wb w) b) (add32 (wc w) c) (add32 (wd w) d).

Definition pad (msg : list Z) : list Z :=
  let len := Z.of_nat (length msg) in
  msg ++ [0x80] ++ replicate (Z.to_nat ((55 - len) mod 64)) 0
      ++ le_bytes 8 ((8 * len) mod 2 ^ 64).

Definition md5_digest (msg : list byte) : list Z :=
  let padded := pad ((λ b, Z.of_N (Byte.to_N b)) <$> msg) in
  let '(Chain a b c d) :=
    foldl compress chain0 (groups 64 (length padded) padded) in
  le_bytes 4 a ++ le_bytes 4 b ++ le_bytes 4 c ++ le_bytes 4 d.

Definition hex_digit (x : Z) : ascii :=
  nth (Z.to_nat x) (String.list_ascii_of_string "0123456789abcdef") "0"%char.

Definition hex_of_bytes (bs : list Z) : string :=
  String.string_of_list_ascii
    (bs ≫= λ b, [hex_digit (b / 16); hex_digit (b mod 16)]).

(** A [hashlib.md5()] object is determined by the bytes fed to it so far:
    [update] appends, [hexdigest] hashes everything fed and leaves the
    object as it was. *)
Definition md5 := list byte.
Definition new : md5 := [].
Definition update (h : md5) (data : list byte) : md5 := h ++ data.
Definition hexdigest (h : md5) : list N := lit (hex_of_bytes (md5_digest h)).

End hashlib.

(** ** Exceptions, the world and the monad *)

Inductive exn :=
  | IndexError
  | KeyError
  | UnicodeEncodeError
  | FileNotFoundError
  | FileExistsError
  | LibraryError (origin : string).

(** Calls into the imported libraries, in the order they are made. *)
Inductive call :=
  | CallGzip (path : list N)
  | CallLoader (path : list N)
  | CallMagic (path : list N)
  | CallSplit (text : list N).

Record world := World {
  fs : gmap (list N) (list byte);   (* files by path *)
  md5 : hashlib.md5;                (* the module-level [md5] object *)
  stdout : list (list N);           (* lines printed *)
  calls : list call;                (* library calls *)
}.

Definition M (A : Type) : Type := world → (exn + A) * world.

Definition run {A} (m : M A) (w : world) : (exn + A) * world := m w.

Global Instance M_ret : MRet M := λ A a w, (inr a, w).
Global Instance M_bind : MBind M := λ A B f m w,
  match m w with
  | (inl e, w') => (inl e, w')
  | (inr a, w') => f a w'
  end.

Definition raise {A} (e : exn) : M A := λ w, (inl e, w).
Definition get_world : M world := λ w, (inr w, w).
Definition modify (f : world → world) : M () := λ w, (inr (), f w).

Definition set_fs (f : gmap (list N) (list byte) → gmap (list N) (list byte))
    (w : world) : world :=
  World (f (fs w)) (md5 w) (stdout w) (calls w).
Definition set_md5 (h : hashlib.md5) (w : world) : world :=
  World (fs w) h (stdout w) (calls w).
Definition log_stdout (line : list N) (w : world) : world :=
  World (fs w) (md5 w) (stdout w ++ [line]) (calls w).
Definition log_call (c : call) (w : world) : world :=
  World (fs w) (md5 w) (stdout w) (calls w ++ [c]).

(** [print(a, b, ...)]: the arguments separated by one space. *)
Fixpoint join_space (args : list (list N)) : list N :=
  match args with
  | [] => []
  | [a] => a
  | a :: rest => a ++ lit " " ++ join_space rest
  end.
Definition print (args : list (list N)) : M () :=
  modify (log_stdout (join_space args)).

(** [l[i]] on a Python list. *)
Definition index {A} (l : list A) (i : nat) : M A :=
  match l !! i with
  | Some x => mret x
  | None => raise IndexError
  end.

(** [open(path, 'rb')] followed by reading the whole file. *)
Definition read_file (path : list N) : M (list byte) :=
  w ← get_world;
  match fs w !! path with
  | Some content => mret content
  | None => raise FileNotFoundError
  end.

(** [f.write(data)] on a file opened for writing.  Buffered data is
    committed by [flush()] before anyone reads the file by name; the
    model writes through and [flush] has nothing left to do. *)
Definition write (path : list N) (data : list byte) : M () :=
  modify (set_fs (λ m, <[path := default [] (m !! path) ++ data]> m)).
Definition flush (path : list N) : M () := mret ().

(** ** Configuration and imported libraries *)

(** The environment-derived module constants the handler reads (lines
    19-25).  [MODEL], [NLTK_DATA], [MAX_FILE_SIZE_IN_MB] and
    [SUPPORTED_FILE_TYPES] only configure the libraries and the upload
    middleware. *)
Record config := Config {
  delete_temp_file : bool;
  chunk_size : Z;
  chunk_overlap : Z;
}.

(** A langchain [Document]: text and metadata. *)
Record LCDocument := LCDoc {
  page_content : list N;
  lc_metadata : gmap (list N) (list N);
}.

(** What the module takes from its imports.
    - [tokenizer_encode]: [GPT2TokenizerFast.from_pretrained(model).encode];
    - [split_text]: [RecursiveCharacterTextSplitter.from_huggingface_tokenizer
      (...).split_text], given the length function built from the
      tokenizer, [chunk_size], [chunk_overlap] and the text;
    - [loader_load]: [UnstructuredFileLoader(file_path, post_processors=
      [clean_extra_whitespace]).load()], given the path and the file's
      bytes;
    - [magic_from_file]: [magic.from_file(path, mime=True)], given the
      file's bytes;
    - [gzip_read]: iterating a [gzip.open(path, 'rb')] stream: the bytes
      it yields and the error that ends it early, if any;
    - [mkstemp]: the path [tempfile] settles on for a new temporary file. *)
Record externals := Externals {
  tokenizer_encode : list N → list Z;
  split_text : (list N → Z) → Z → Z → list N → list (list N);
  loader_load : list N → list byte → exn + list LCDocument;
  magic_from_file : list byte → list N;
  gzip_read : list byte → list byte * option exn;
  mkstemp : gmap (list N) (list byte) → list N;
}.

(** ** The response models (pydantic) *)

Module DocumentItem.
Record t := mk {
  content : list N;
  tokens_count : Z;
  metadata : gmap (list N) (list N);
}.
End DocumentItem.

Module Document.
Record t := mk {
  content : option (list N);
  tokens_count : Z;
  mime_type : list N;
  items : list DocumentItem.t;
}.
End Document.

(** ** The module's functions *)

Section ingest.
Context (cfg : config) (ext : externals).

(** [tempfile.NamedTemporaryFile(mode='wb', delete=delete_temp_file)] as a
    context manager: the file is created empty under a name that must not
    exist yet, the body runs, and on every exit path the file is closed,
    which removes it when [delete_temp_file] is set. *)
Definition NamedTemporaryFile {A} (body : list N → M A) : M A := λ w,
  let name := mkstemp ext (fs w) in
  match fs w !! name with
  | Some _ => (inl FileExistsError, w)
  | None =>
      let '(r, w') := body name (set_fs (insert name []) w) in
      (r, if delete_temp_file cfg then set_fs (delete name) w' else w')
  end.

(** Lines 67-69. *)
Definition is_gz_file (file_path : list N) : M bool :=
  f ← read_file file_path;
  mret (bool_decide (take 2 f = [x1f; x8b])).

(** Lines 72-74. *)
Definition get_mime_type (file_path : list N) : M (list N) :=
  f ← read_file file_path;
  modify (log_call (CallMagic file_path));;
  mret (magic_from_file ext f).

(** Lines 77-79. *)
Definition count_tokens (text : list N) : Z :=
  let encoded := tokenizer_encode ext text in
  Z.of_nat (length encoded).

(** [UnstructuredFileLoader(file_path=..., ...).load()]. *)
Definition UnstructuredFileLoader_load (file_path : list N)
    : M (list LCDocument) :=
  f ← read_file file_path;
  modify (log_call (CallLoader file_path));;
  match loader_load ext file_path f with
  | inl e => raise e
  | inr docs => mret docs
  end.

(** Lines 82-103.  [file_name] is [file.name]. *)
Definition load (file_name : list N) : M (list LCDocument * list N) :=
  gz ← is_gz_file file_name;
  if (gz : bool) then
    print [lit "The " ++ file_name ++ lit " is gzip compressed."];;
    gzipped_file ← read_file file_name;
    modify (log_call (CallGzip file_name));;
    NamedTemporaryFile (λ decompressed_file,
      let '(chunks, err) := gzip_read ext gzipped_file in
      write decompressed_file chunks;;
      match err with Some e => raise e | None => mret () end;;
      flush decompressed_file;;
      docs ← UnstructuredFileLoader_load decompressed_file;
      mime ← get_mime_type decompressed_file;
      mret (docs, mime))
  else
    docs ← UnstructuredFileLoader_load file_name;
    mime ← get_mime_type file_name;
    mret (docs, mime).

(** Lines 106-112.  The [md5] object is created once, at import; each
    call feeds it and reads the digest of everything fed so far. *)
Definition get_doc_id (doc : LCDocument) : M (list N) :=
  source ← match lc_metadata doc !! lit "source" with
           | Some s => mret s
           | None => raise KeyError
           end;
  data ← match utf8_encode source with
         | Some bs => mret bs
         | None => raise UnicodeEncodeError
         end;
  w ← get_world;
  let h := hashlib.update (md5 w) data in
  modify (set_md5 h);;
  let uid := take 12 (hashlib.hexdigest h) in
  mret uid.

(** Lines 115-122. *)
Definition split (doc : LCDocument) : M (list (list N)) :=
  modify (log_call (CallSplit (page_content doc)));;
  let chunks :=
    split_text ext (λ text, Z.of_nat (length (tokenizer_encode ext text)))
      (chunk_size cfg) (chunk_overlap cfg) (page_content doc) in
  mret chunks.

(** Lines 146-150: read the upload [file_chunk_size] bytes at a time
    until a read comes back empty, writing each piece to [temp]. *)
Definition file_chunk_size : nat := Z.to_nat (1024 * 1024).

Fixpoint copy_upload (fuel : nat) (temp : list N) (file : list byte) : M () :=
  match fuel with
  | O => mret ()
  | S fuel' =>
      let chunk := take file_chunk_size file in
      match chunk with
      | [] => mret ()
      | _ => write temp chunk;; copy_upload fuel' temp (drop file_chunk_size file)
      end
  end.

(** One [DocumentItem] of lines 163-169. *)
Definition make_item (id : list N) (i : nat) (text : list N) : DocumentItem.t :=
  DocumentItem.mk text (count_tokens text)
    {[ lit "id" := id ++ lit "-" ++ lit (pretty i) ]}.

(** Lines 153-180: what the handler does with the loader's result.  The
    spec calls this part the chunker. *)
Definition chunker (loaded : list LCDocument * list N) : M Document.t :=
  let '(docs, mime_type) := loaded in
  print [lit "mime_type"; mime_type];;
  doc ← index docs 0;
  let doc_tokens_count := count_tokens (page_content doc) in
  items ←
    (if decide (doc_tokens_count > chunk_size cfg) then
       texts ← split doc;
       print [lit (pretty (length texts))];;
       second ← index texts 1;
       print [second];;
       id ← get_doc_id doc;
       mret (foldl (λ items '(i, text), items ++ [make_item id i text])
                   [] (imap pair texts))
     else
       print [lit "doc_tokens_count <= chunk_size: doc.page_content:";
              page_content doc];;
       mret []);
  mret (Document.mk
          (if decide (mime_type ≠ lit "text/plain")
           then Some (page_content doc) else None)
          doc_tokens_count mime_type items).

(** Lines 146-152: receive the upload into [temp] and extract it. *)
Definition receive_and_load (temp : list N) (file : list byte)
    : M (list LCDocument * list N) :=
  copy_upload (S (length file)) temp file;;
  flush temp;;
  load temp.

(** Lines 138-180, the [/ingest] handler.  [file] is the uploaded body. *)
Definition load_split_count (file : list byte) : M Document.t :=
  NamedTemporaryFile (λ temp,
    loaded ← receive_and_load temp file;
    chunker loaded).

End ingest.

(** ** Test doubles for the imported libraries

    Concrete stand-ins used to run the module on examples: a tokenizer
    with one token per code point, a splitter cutting windows of
    [chunk_size] code points, a loader returning the file decoded as
    Latin-1 in a single document, and so on. *)

Module toy.

Definition encode (text : list N) : list Z := Z.of_N <$> text.

Definition windows (length_function : list N → Z) (size overlap : Z)
    (text : list N) : list (list N) :=
  hashlib.groups (Z.to_nat size) (length text) text.

Definition latin1 (data : list byte) : list N := Byte.to_N <$> data.

Definition loader (path : list N) (data : list byte) : exn + list LCDocument :=
  inr [LCDoc (latin1 data) {[ lit "source" := path ]}].

(** A loader that finds no text segment at all. *)
Definition loader_nothing (path : list N) (data : list byte)
    : exn + list LCDocument :=
  inr [].

Definition magic (data : list byte) : list N :=
  if bool_decide (take 1 data = ["<"%byte]) then lit "text/html"
  else lit "text/plain".

Definition gunzip (data : list byte) : list byte * option exn :=
  (drop 2 data, None).

Definition tmp_name (files : gmap (list N) (list byte)) : list N :=
  lit "/tmp/tmp" ++ lit (pretty (size files)).

Definition ext : externals :=
  Externals encode windows loader magic gunzip tmp_name.

Definition ext_nothing : externals :=
  Externals encode windows loader_nothing magic gunzip tmp_name.

(** A splitter that finds no place to cut and returns the text whole. *)
Definition whole (length_function : list N → Z) (size overlap : Z)
    (text : list N) : list (list N) :=
  [text].

Definition ext_whole : externals :=
  Externals encode whole loader magic gunzip tmp_name.

Definition cfg : config := Config true 4 0.

(** A freshly started process: no files, nothing fed to [md5]. *)
Definition boot : world := World ∅ hashlib.new [] [].

Definition ascii_bytes (s : string) : list byte := String.list_byte_of_string s.

End toy.

(** ** Vocabulary of the statements *)

(** The [else] branch of [load], spelled out. *)
Definition load_plain_outcome (ext : externals) (file_name : list N)
    (content : list byte) (w : world)
    : (exn + (list LCDocument * list N)) * world :=
  match loader_load ext file_name content with
  | inl e => (inl e, log_call (CallLoader file_name) w)
  | inr docs =>
      (inr (docs, magic_from_file ext content),
       log_call (CallMagic file_name) (log_call (CallLoader file_name) w))
  end.

(** The texts handed to the splitter so far, oldest first. *)
Definition splitter_calls (w : world) : list (list N) :=
  omap (λ c, match c with CallSplit text => Some text | _ => None end) (calls w).

(** What [split] returns for a document: the splitter is configured with
    the tokenizer's length function, which is [count_tokens]. *)
Definition chunks_of (cfg : config) (ext : externals) (doc : LCDocument)
    : list (list N) :=
  split_text ext (count_tokens ext) (chunk_size cfg) (chunk_overlap cfg)
    (page_content doc).

(** The [Document] built on lines 173-179 from the first extracted
    document, the MIME type and the items. *)
Definition response (ext : externals) (doc : LCDocument) (mime_type : list N)
    (items : list DocumentItem.t) : Document.t :=
  Document.mk
    (if decide (mime_type ≠ lit "text/plain")
     then Some (page_content doc) else None)
    (count_tokens ext (page_content doc)) mime_type items.

(** In the request served from world [w] on upload [file], extraction
    succeeds with documents [docs] and MIME type [mime], leaving [w1]. *)
Definition extracts (cfg : config) (ext : externals) (file : list byte)
    (w : world) (docs : list LCDocument) (mime : list N) (w1 : world) : Prop :=
  let temp := mkstemp ext (fs w) in
  fs w !! temp = None ∧
  receive_and_load cfg ext temp file (set_fs (insert temp []) w)
  = (inr (docs, mime), w1).

(** Leaving the [with] block of the handler. *)
Definition close_temp (cfg : config) (ext : externals) (w w' : world) : world :=
  if delete_temp_file cfg then set_fs (delete (mkstemp ext (fs w))) w' else w'.

(** C2, as the spec words it.  The loader is used in its default mode,
    which joins the text segments it finds into one document, so an
    extraction with no segment is one whose document has empty text; the
    claim is that the handler then ends in an error that is not an index
    error. *)
Definition empty_extraction_surfaces_an_error : Prop :=
  ∀ cfg ext file w doc docs mime w1,
    extracts cfg ext file w (doc :: docs) mime w1 →
    page_content doc = [] →
    ∃ e, (load_split_count cfg ext file w).1 = inl e ∧ e ≠ IndexError.

(** ** Further vocabulary *)

(** The characters of a lower-case hexadecimal numeral. *)
Definition is_hex (c : N) : Prop := c ∈ lit "0123456789abcdef".

(** Code points [str.encode('utf-8')] rejects. *)
Definition not_encodable (c : N) : Prop :=
  is_surrogate c = true ∨ (0x110000 ≤ c)%N.

(** A gzip stream that breaks off after three bytes of output. *)
Definition toy_ext_truncated : externals :=
  Externals toy.encode toy.windows toy.loader toy.magic
    (λ data, (take 3 (drop 2 data), Some (LibraryError "EOFError")))
    toy.tmp_name.

(** ** Running the monad *)

Arguments lit : simpl never.
Arguments join_space : simpl never.
Arguments split : simpl never.
Arguments get_doc_id : simpl never.
Arguments count_tokens : simpl never.

Ltac run_monad :=
  unfold run, mbind, M_bind, mret, M_ret, raise, get_world, modify in *.

Lemma run_bind {A B} (m : M A) (f : A → M B) (w : world) :
  (m ≫= f) w =
  match m w with
  | (inl e, w') => (inl e, w')
  | (inr a, w') => f a w'
  end.
Proof. reflexivity. Qed.

Lemma run_bind_inr {A B} (m : M A) (f : A → M B) w b w' :
  (m ≫= f) w = (inr b, w') →
  ∃ a w1, m w = (inr a, w1) ∧ f a w1 = (inr b, w').
Proof.
  rewrite run_bind. destruct (m w) as [[e|a] w1]; [discriminate|].
  intros H. by exists a, w1.
Qed.

Lemma run_print args w : print args w = (inr (), log_stdout (join_space args) w).
Proof. reflexivity. Qed.

(** ** String literals and UTF-8 *)

Lemma lit_inj s1 s2 : lit s1 = lit s2 → s1 = s2.
Proof.
  unfold lit. intros H.
  rewrite <- (String.string_of_list_ascii_of_string s1),
          <- (String.string_of_list_ascii_of_string s2).
  f_equal. revert H.
  generalize (String.list_ascii_of_string s1) (String.list_ascii_of_string s2).
  induction l as [|a l IH]; intros [|b l'] H; simplify_eq/=; [done|].
  f_equal; [|by apply IH].
  rewrite <- (ascii_N_embedding a), <- (ascii_N_embedding b). congruence.
Qed.

Example utf8_encode_multibyte :
  utf8_encode [0xE9; 0x20AC; 0x1F600]%N
  = Some [xc3; xa9; xe2; x82; xac; xf0; x9f; x98; x80].
Proof. reflexivity. Qed.

Example utf8_encode_surrogate : utf8_encode [0x61; 0xDC80]%N = None.
Proof. reflexivity. Qed.

(** ** hashlib.md5 against the RFC 1321 test suite *)

Example md5_empty :
  hashlib.hex_of_bytes (hashlib.md5_digest [])
  = "d41d8cd98f00b204e9800998ecf8427e"%string.
Proof. vm_compute. reflexivity. Qed.

Example md5_abc :
  hashlib.hex_of_bytes (hashlib.md5_digest (toy.ascii_bytes "abc"))
  = "900150983cd24fb0d6963f7d28e17f72"%string.
Proof. vm_compute. reflexivity. Qed.

Example md5_digits :
  hashlib.hex_of_bytes (hashlib.md5_digest (toy.ascii_bytes
    "12345678901234567890123456789012345678901234567890123456789012345678901234567890"))
  = "57edf4a22be3c955ac49da2e2107b67a"%string.
Proof. vm_compute. reflexivity. Qed.

(** ** get_doc_id *)

(** What one call does: the source path is appended to whatever the
    shared object has been fed before, and the id is read off the digest
    of the whole. *)
Lemma get_doc_id_run doc source data w :
  lc_metadata doc !! lit "source" = Some source →
  utf8_encode source = Some data →
  get_doc_id doc w =
    (inr (take 12 (hashlib.hexdigest (md5 w ++ data))),
     set_md5 (md5 w ++ data) w).
Proof.
  intros Hs Hd. unfold get_doc_id. run_monad. by rewrite Hs, Hd.
Qed.

(** On an object that has been fed nothing, the id is the digest prefix
    of the path alone. *)
Lemma get_doc_id_first doc source data w :
  lc_metadata doc !! lit "source" = Some source →
  utf8_encode source = Some data →
  md5 w = hashlib.new →
  fst (get_doc_id doc w) = inr (take 12 (hashlib.hexdigest data)).
Proof.
  intros Hs Hd Hw. rewrite (get_doc_id_run _ _ _ _ Hs Hd), Hw. done.
Qed.

Lemma get_doc_id_inv doc id w w' :
  get_doc_id doc w = (inr id, w') →
  ∃ source data,
    lc_metadata doc !! lit "source" = Some source ∧
    utf8_encode source = Some data ∧
    id = take 12 (hashlib.hexdigest (md5 w ++ data)) ∧
    w' = set_md5 (md5 w ++ data) w.
Proof.
  unfold get_doc_id. run_monad.
  destruct (lc_metadata doc !! lit "source") as [source|] eqn:Hs; [|discriminate].
  destruct (utf8_encode source) as [data|] eqn:Hd; [|discriminate].
  intros [= <- <-]. by exists source, data.
Qed.

(** C1 (the code departs from the claim).  In a freshly started process,
    two successive calls of [get_doc_id] on a document whose source is
    "/tmp/tmpk3x9a2bq" return different ids: the first is the prefix of
    MD5("/tmp/tmpk3x9a2bq"), the second the prefix of the MD5 of the path
    fed twice, because the module-level object keeps what earlier calls
    fed it. *)
Theorem get_doc_id_depends_on_earlier_calls :
  let doc := LCDoc (lit "text") {[ lit "source" := lit "/tmp/tmpk3x9a2bq" ]} in
  let '(first, w1) := get_doc_id doc toy.boot in
  let '(second, _) := get_doc_id doc w1 in
  first = inr (lit "16116da98f05") ∧
  second = inr (lit "5d5cea3d2f54") ∧
  first ≠ second.
Proof. vm_compute. split; [reflexivity|]. split; [reflexivity|]. discriminate. Qed.

(** ** count_tokens *)

Lemma count_tokens_nonneg ext text : 0 ≤ count_tokens ext text.
Proof. unfold count_tokens. lia. Qed.

(** ** Receiving the upload *)

Arguments file_chunk_size : simpl never.

Lemma file_chunk_size_succ : ∃ k, file_chunk_size = S k.
Proof. exists (Nat.pred file_chunk_size). unfold file_chunk_size. lia. Qed.

Lemma set_fs_insert_id w path content :
  fs w !! path = Some content → set_fs (insert path content) w = w.
Proof.
  intros H. destruct w as [files h out cs]; simpl in *.
  unfold set_fs; simpl. by rewrite insert_id.
Qed.

(** With fuel beyond the length of the upload the loop ends on the empty
    read, and the temporary file has gained exactly the uploaded bytes. *)
Lemma copy_upload_run fuel temp file w before :
  (length file < fuel)%nat →
  fs w !! temp = Some before →
  copy_upload fuel temp file w =
    (inr (), set_fs (insert temp (before ++ file)) w).
Proof.
  revert file w before.
  induction fuel as [|fuel IH]; intros file w before Hlen Hw; [lia|].
  simpl. destruct file as [|b file].
  - rewrite take_nil, app_nil_r. by rewrite set_fs_insert_id.
  - specialize (IH (drop file_chunk_size (b :: file))).
    destruct file_chunk_size_succ as [k Hk]. revert IH Hk.
    generalize file_chunk_size. intros n IH ->. simpl in *.
    rewrite run_bind. unfold write at 1, modify.
    erewrite (IH _ (before ++ b :: take k file)).
    + f_equal. destruct w as [files h out cs]; unfold set_fs; simpl in *.
      rewrite insert_insert_eq, <- app_assoc. simpl.
      by rewrite take_drop.
    + rewrite length_drop. lia.
    + destruct w; unfold set_fs; simpl in *. rewrite lookup_insert_eq.
      by rewrite Hw.
Qed.

Lemma copy_upload_calls fuel temp file w :
  calls (copy_upload fuel temp file w).2 = calls w ∧
  md5 (copy_upload fuel temp file w).2 = md5 w.
Proof.
  revert file w. induction fuel as [|fuel IH]; intros file w; [done|].
  simpl. destruct (take file_chunk_size file); [done|].
  rewrite run_bind. unfold write, modify.
  match goal with
  | |- context [copy_upload fuel temp ?f ?w1] => destruct (IH f w1) as [-> ->]
  end.
  done.
Qed.

(** ** is_gz_file and load *)

Lemma is_gz_file_run file_path content w :
  fs w !! file_path = Some content →
  is_gz_file file_path w = (inr (bool_decide (take 2 content = [x1f; x8b])), w).
Proof. intros H. unfold is_gz_file, read_file. run_monad. by rewrite H. Qed.

Lemma load_not_gz cfg ext file_name content w :
  fs w !! file_name = Some content →
  take 2 content ≠ [x1f; x8b] →
  load cfg ext file_name w = load_plain_outcome ext file_name content w.
Proof.
  intros Hw Hmagic. unfold load. rewrite run_bind.
  rewrite (is_gz_file_run _ _ _ Hw), bool_decide_eq_false_2 by done.
  unfold load_plain_outcome, UnstructuredFileLoader_load, get_mime_type,
    read_file.
  run_monad. rewrite Hw.
  destruct (loader_load ext file_name content); [done|].
  simpl. by rewrite Hw.
Qed.

(** C10.  A file shorter than two bytes (the empty file included) is not
    taken for gzip: [is_gz_file] returns False without raising, [load]
    runs the loader and the MIME sniffer on the file itself, and so does
    the handler's receive-and-load step for an upload that short. *)
Theorem is_gz_file_short_file cfg ext file_path content :
  (length content < 2)%nat →
  (∀ w, fs w !! file_path = Some content →
        is_gz_file file_path w = (inr false, w) ∧
        load cfg ext file_path w = load_plain_outcome ext file_path content w) ∧
  (∀ w, fs w !! file_path = Some [] →
        receive_and_load cfg ext file_path content w
        = load_plain_outcome ext file_path content
            (set_fs (insert file_path content) w)).
Proof.
  intros Hlen.
  assert (take 2 content ≠ [x1f; x8b]) as Hshort.
  { intros Heq.
    assert (length (take 2 content) = 2%nat) as Hl by (by rewrite Heq).
    rewrite length_take in Hl. lia. }
  split.
  - intros w Hw. split.
    + rewrite (is_gz_file_run _ _ _ Hw). by rewrite bool_decide_eq_false_2.
    + by apply load_not_gz.
  - intros w Hw. unfold receive_and_load.
    rewrite run_bind.
    rewrite (copy_upload_run _ _ _ _ [] (Nat.lt_succ_diag_r _) Hw).
    simpl. unfold flush. rewrite run_bind. simpl.
    apply load_not_gz; [|done].
    destruct w; unfold set_fs; simpl. by rewrite lookup_insert_eq.
Qed.

Lemma is_gz_file_short_file_witness :
  let path := lit "/tmp/tmp0" in
  let w := World {[ path := [x1f] ]} hashlib.new [] [] in
  is_gz_file path w = (inr false, w) ∧
  load toy.cfg toy.ext path w = load_plain_outcome toy.ext path [x1f] w.
Proof.
  intros path w.
  apply (is_gz_file_short_file toy.cfg toy.ext path [x1f]).
  - simpl. lia.
  - reflexivity.
Defined.

(** ** The chunker *)

Lemma splitter_calls_log_stdout line w :
  splitter_calls (log_stdout line w) = splitter_calls w.
Proof. reflexivity. Qed.

Lemma items_loop_from ext id (l : list (nat * list N)) acc :
  foldl (λ items '(i, text), items ++ [make_item ext id i text]) acc l
  = acc ++ ((λ p, make_item ext id p.1 p.2) <$> l).
Proof.
  revert acc. induction l as [|[i text] l IH]; intros acc; simpl.
  - by rewrite app_nil_r.
  - rewrite IH. by rewrite <- app_assoc.
Qed.

(** The loop of lines 162-169 builds the items in split order. *)
Lemma items_loop ext id (texts : list (list N)) :
  foldl (λ items '(i, text), items ++ [make_item ext id i text]) []
        (imap pair texts)
  = imap (make_item ext id) texts.
Proof. rewrite items_loop_from. simpl. by rewrite fmap_imap. Qed.

Lemma split_run cfg ext doc w :
  split cfg ext doc w
  = (inr (chunks_of cfg ext doc), log_call (CallSplit (page_content doc)) w).
Proof. reflexivity. Qed.

Lemma chunker_no_docs cfg ext mime w :
  chunker cfg ext ([], mime) w
  = (inl IndexError, log_stdout (join_space [lit "mime_type"; mime]) w).
Proof. reflexivity. Qed.

Lemma chunker_small cfg ext doc docs mime w :
  count_tokens ext (page_content doc) ≤ chunk_size cfg →
  chunker cfg ext (doc :: docs, mime) w
  = (inr (response ext doc mime []),
     log_stdout
       (join_space [lit "doc_tokens_count <= chunk_size: doc.page_content:";
                    page_content doc])
       (log_stdout (join_space [lit "mime_type"; mime]) w)).
Proof.
  intros Hle. unfold chunker. run_monad. simpl.
  destruct (decide _) as [Hgt|_]; [lia|]. reflexivity.
Qed.

Lemma chunker_large cfg ext doc docs mime w :
  count_tokens ext (page_content doc) > chunk_size cfg →
  chunker cfg ext (doc :: docs, mime) w
  = let texts := chunks_of cfg ext doc in
    let w1 := log_stdout (lit (pretty (length texts)))
                (log_call (CallSplit (page_content doc))
                   (log_stdout (join_space [lit "mime_type"; mime]) w)) in
    match texts !! 1%nat with
    | None => (inl IndexError, w1)
    | Some second =>
        match get_doc_id doc (log_stdout second w1) with
        | (inl e, w2) => (inl e, w2)
        | (inr id, w2) =>
            (inr (response ext doc mime (imap (make_item ext id) texts)), w2)
        end
    end.
Proof.
  intros Hgt. unfold chunker. run_monad. simpl.
  destruct (decide _) as [_|Hle]; [|lia].
  change (split_text ext _ _ _ _) with (chunks_of cfg ext doc).
  unfold index. run_monad.
  destruct (chunks_of cfg ext doc !! 1%nat) as [second|]; [|done].
  change (join_space [second]) with second.
  change (join_space [?x]) with x.
  destruct (get_doc_id doc _) as [[e|id] w2]; [done|].
  by rewrite items_loop.
Qed.

(** ** The handler *)

Lemma load_split_count_extracted cfg ext file w docs mime w1 :
  extracts cfg ext file w docs mime w1 →
  load_split_count cfg ext file w
  = ((chunker cfg ext (docs, mime) w1).1,
     close_temp cfg ext w (chunker cfg ext (docs, mime) w1).2).
Proof.
  intros [Hfresh Hload]. unfold load_split_count, NamedTemporaryFile.
  rewrite Hfresh, run_bind, Hload.
  by destruct (chunker cfg ext (docs, mime) w1).
Qed.

Lemma load_split_count_inr cfg ext file w d w' :
  load_split_count cfg ext file w = (inr d, w') →
  ∃ docs mime w1 w2,
    extracts cfg ext file w docs mime w1 ∧
    chunker cfg ext (docs, mime) w1 = (inr d, w2) ∧
    w' = close_temp cfg ext w w2.
Proof.
  unfold load_split_count, NamedTemporaryFile, extracts, close_temp.
  destruct (fs w !! mkstemp ext (fs w)) eqn:Hfresh; [discriminate|].
  rewrite run_bind.
  destruct (receive_and_load _ _ _ _ _) as [[e|[docs mime]] w1] eqn:Hload.
  - discriminate.
  - destruct (chunker cfg ext (docs, mime) w1) as [r w2] eqn:Hc.
    intros [= -> <-]. by exists docs, mime, w1, w2.
Qed.

(** A successful chunker run, read backwards. *)
Lemma chunker_inr cfg ext docs mime w d w' :
  chunker cfg ext (docs, mime) w = (inr d, w') →
  ∃ doc rest,
    docs = doc :: rest ∧
    ((count_tokens ext (page_content doc) ≤ chunk_size cfg ∧
      d = response ext doc mime [] ∧
      splitter_calls w' = splitter_calls w ∧ md5 w' = md5 w)
     ∨
     (count_tokens ext (page_content doc) > chunk_size cfg ∧
      (2 ≤ length (chunks_of cfg ext doc))%nat ∧
      ∃ source data,
        lc_metadata doc !! lit "source" = Some source ∧
        utf8_encode source = Some data ∧
        d = response ext doc mime
              (imap (make_item ext
                       (take 12 (hashlib.hexdigest (md5 w ++ data))))
                    (chunks_of cfg ext doc)))).
Proof.
  destruct docs as [|doc rest]; [by rewrite chunker_no_docs|].
  intros Hrun. exists doc, rest. split; [done|].
  destruct (decide (count_tokens ext (page_content doc) > chunk_size cfg))
    as [Hgt|Hle].
  - right. split; [done|].
    rewrite chunker_large in Hrun by done. simpl in Hrun.
    destruct (chunks_of cfg ext doc !! 1%nat) as [second|] eqn:Hsecond;
      [|discriminate].
    apply lookup_lt_Some in Hsecond. split; [lia|].
    destruct (get_doc_id doc _) as [[e|id] w2] eqn:Hid; [discriminate|].
    apply get_doc_id_inv in Hid as (source & data & Hs & Hd & -> & _).
    exists source, data. by simplify_eq.
  - left. split; [lia|].
    rewrite chunker_small in Hrun by lia. by simplify_eq.
Qed.

(** Neither the upload loop nor [load] calls the splitter or feeds the
    [md5] object. *)
Lemma load_keeps cfg ext file_name w :
  splitter_calls (load cfg ext file_name w).2 = splitter_calls w ∧
  md5 (load cfg ext file_name w).2 = md5 w.
Proof.
  unfold load, is_gz_file, NamedTemporaryFile, UnstructuredFileLoader_load,
    get_mime_type, read_file, write, flush, print, splitter_calls.
  run_monad. simpl.
  repeat (case_match; simplify_eq/=); rewrite ?omap_app, ?app_nil_r; done.
Qed.

Lemma receive_and_load_keeps cfg ext temp file w :
  splitter_calls (receive_and_load cfg ext temp file w).2 = splitter_calls w ∧
  md5 (receive_and_load cfg ext temp file w).2 = md5 w.
Proof.
  pose proof (copy_upload_calls (S (length file)) temp file w) as [Hc Hm].
  unfold receive_and_load, flush. run_monad.
  destruct (copy_upload _ _ _ _) as [[e|[]] w0]; simpl in *.
  - unfold splitter_calls. by rewrite Hc, Hm.
  - destruct (load_keeps cfg ext temp w0) as [-> ->].
    unfold splitter_calls. by rewrite Hc, Hm.
Qed.

Lemma extracts_keeps cfg ext file w docs mime w1 :
  extracts cfg ext file w docs mime w1 →
  splitter_calls w1 = splitter_calls w ∧ md5 w1 = md5 w.
Proof.
  intros [_ Hload].
  pose proof (receive_and_load_keeps cfg ext (mkstemp ext (fs w)) file
                (set_fs (insert (mkstemp ext (fs w)) []) w)) as Hk.
  by rewrite Hload in Hk.
Qed.

Lemma close_temp_keeps cfg ext w w' :
  splitter_calls (close_temp cfg ext w w') = splitter_calls w' ∧
  md5 (close_temp cfg ext w w') = md5 w'.
Proof. unfold close_temp. by destruct (delete_temp_file cfg). Qed.

(** ** Properties of the handler *)

(** C2 (counterexample).  The empty upload is extracted to one document
    with empty text, and the handler returns a [Document] for it: no
    error surfaces. *)
Lemma empty_extraction_returns_normally :
  ¬ empty_extraction_surfaces_an_error.
Proof.
  intros Hclaim.
  edestruct (Hclaim toy.cfg toy.ext [] toy.boot) as (e & He & _).
  - split; vm_compute; reflexivity.
  - reflexivity.
  - vm_compute in He. discriminate.
Qed.

(** C2 (amended).  Whenever extraction yields no text and the empty text
    counts at most [chunk_size] tokens, the handler raises nothing: it
    returns a complete [Document] with no items, the token count of the
    empty text, the detected MIME type and the empty text as content
    (null for text/plain).  The source has no extraction-failure error;
    no partial [Document] is returned. *)
Theorem empty_extraction_returns_empty_document cfg ext file w doc docs mime w1 :
  extracts cfg ext file w (doc :: docs) mime w1 →
  page_content doc = [] →
  count_tokens ext [] ≤ chunk_size cfg →
  ∃ w',
    load_split_count cfg ext file w
    = (inr (Document.mk
              (if decide (mime ≠ lit "text/plain") then Some [] else None)
              (count_tokens ext []) mime []),
       w').
Proof.
  intros Hex Hempty Hle.
  rewrite (load_split_count_extracted _ _ _ _ _ _ _ Hex).
  rewrite chunker_small by (by rewrite Hempty).
  unfold response. rewrite Hempty. cbn [fst snd]. eauto.
Qed.

Lemma empty_extraction_returns_empty_document_witness :
  ∃ w',
    load_split_count toy.cfg toy.ext [] toy.boot
    = (inr (Document.mk
              (if decide (lit "text/plain" ≠ lit "text/plain")
               then Some [] else None)
              (count_tokens toy.ext []) (lit "text/plain") []),
       w').
Proof.
  eapply (empty_extraction_returns_empty_document toy.cfg toy.ext []
            toy.boot (LCDoc [] {[ lit "source" := lit "/tmp/tmp0" ]}) []
            (lit "text/plain")).
  - split; vm_compute; reflexivity.
  - reflexivity.
  - vm_compute. discriminate.
Defined.

(** C3.  When the first extracted document has at most [chunk_size]
    tokens, the handler returns a [Document] with no items whose
    [tokens_count] is the document's token count, and the splitter has
    not been called during the request. *)
Theorem small_document_is_not_split cfg ext file w doc docs mime w1 :
  extracts cfg ext file w (doc :: docs) mime w1 →
  count_tokens ext (page_content doc) ≤ chunk_size cfg →
  ∃ d w',
    load_split_count cfg ext file w = (inr d, w') ∧
    Document.items d = [] ∧
    Document.tokens_count d = count_tokens ext (page_content doc) ∧
    splitter_calls w' = splitter_calls w.
Proof.
  intros Hex Hle. rewrite (load_split_count_extracted _ _ _ _ _ _ _ Hex).
  rewrite chunker_small by done. simpl.
  eexists _, _. split; [reflexivity|]. split; [done|]. split; [done|].
  destruct (close_temp_keeps cfg ext w
    (log_stdout
       (join_space [lit "doc_tokens_count <= chunk_size: doc.page_content:";
                    page_content doc])
       (log_stdout (join_space [lit "mime_type"; mime]) w1))) as [-> _].
  rewrite !splitter_calls_log_stdout.
  by destruct (extracts_keeps _ _ _ _ _ _ _ Hex) as [-> _].
Qed.

Lemma small_document_is_not_split_witness :
  let doc := LCDoc (lit "hi") {[ lit "source" := lit "/tmp/tmp0" ]} in
  ∃ d w',
    load_split_count toy.cfg toy.ext (toy.ascii_bytes "hi") toy.boot
    = (inr d, w') ∧
    Document.items d = [] ∧
    Document.tokens_count d = count_tokens toy.ext (page_content doc) ∧
    splitter_calls w' = splitter_calls toy.boot.
Proof.
  intros doc.
  eapply (small_document_is_not_split toy.cfg toy.ext (toy.ascii_bytes "hi")
            toy.boot doc [] (lit "text/plain")).
  - split; vm_compute; reflexivity.
  - vm_compute. discriminate.
Defined.

(** C5.  In every returned [Document], [content] is null exactly when
    the MIME type is text/plain, split or not; otherwise it is the text
    of the first extracted document. *)
Theorem content_null_iff_text_plain cfg ext file w d w' :
  load_split_count cfg ext file w = (inr d, w') →
  (Document.content d = None ↔ Document.mime_type d = lit "text/plain") ∧
  ∃ doc docs w1,
    extracts cfg ext file w (doc :: docs) (Document.mime_type d) w1 ∧
    (Document.mime_type d ≠ lit "text/plain" →
     Document.content d = Some (page_content doc)).
Proof.
  intros Hrun.
  apply load_split_count_inr in Hrun as (docs & mime & w1 & w2 & Hex & Hc & _).
  apply chunker_inr in Hc as (doc & rest & -> & Hcases).
  assert (∃ items, d = response ext doc mime items) as [items ->].
  { destruct Hcases as [(_ & -> & _)|(_ & _ & ? & ? & _ & _ & ->)]; eauto. }
  simpl. split.
  - destruct (decide (mime ≠ lit "text/plain")) as [Hne|Heq].
    + split; [discriminate|done].
    + split; [intros _|done]. by apply dec_stable.
  - exists doc, rest, w1. split; [done|]. intros Hne.
    by destruct (decide (mime ≠ lit "text/plain")).
Qed.

Lemma content_null_iff_text_plain_witness :
  ∃ d w',
    load_split_count toy.cfg toy.ext (toy.ascii_bytes "<p>hello world")
      toy.boot = (inr d, w') ∧
    (Document.content d = None ↔ Document.mime_type d = lit "text/plain").
Proof.
  eexists _, _. split; [vm_compute; reflexivity|].
  eapply (content_null_iff_text_plain toy.cfg toy.ext
            (toy.ascii_bytes "<p>hello world") toy.boot).
  vm_compute. reflexivity.
Defined.

(** C6.  Whenever the document is split, the items are the splitter's
    chunks in the splitter's order, and the chunk at position
    [chunk_index], counted from 0, carries the id
    "{document_id}-{chunk_index}", where [document_id] is the id that
    [get_doc_id] derives for the document in the state extraction leaves
    (printing and splitting do not touch the [md5] object). *)
Theorem chunk_ids_follow_split_order cfg ext file w d w' :
  load_split_count cfg ext file w = (inr d, w') →
  ∃ doc docs mime w1,
    extracts cfg ext file w (doc :: docs) mime w1 ∧
    (count_tokens ext (page_content doc) > chunk_size cfg →
     ∃ document_id,
       (get_doc_id doc w1).1 = inr document_id ∧
       Document.items d
       = imap (λ chunk_index text,
                 DocumentItem.mk text (count_tokens ext text)
                   {[ lit "id" :=
                        document_id ++ lit "-" ++ lit (pretty chunk_index) ]})
              (chunks_of cfg ext doc)).
Proof.
  intros Hrun.
  apply load_split_count_inr in Hrun as (docs & mime & w1 & w2 & Hex & Hc & _).
  apply chunker_inr in Hc as (doc & rest & -> & Hcases).
  exists doc, rest, mime, w1. split; [done|]. intros Hgt.
  destruct Hcases as [(Hle & _)|(_ & _ & source & data & Hs & Hd & ->)]; [lia|].
  exists (take 12 (hashlib.hexdigest (md5 w1 ++ data))).
  by rewrite (get_doc_id_run _ _ _ _ Hs Hd).
Qed.

Lemma chunk_ids_follow_split_order_witness :
  ∃ d w',
    load_split_count toy.cfg toy.ext (toy.ascii_bytes "<p>hello world")
      toy.boot = (inr d, w') ∧
    (DocumentItem.metadata <$> Document.items d) !! 2%nat
    = Some {[ lit "id" := lit "67f0d1bce47d-2" ]}.
Proof.
  eexists _, _. split; [vm_compute; reflexivity|].
  edestruct (chunk_ids_follow_split_order toy.cfg toy.ext
               (toy.ascii_bytes "<p>hello world") toy.boot)
    as (doc & docs & mime & w1 & [_ Hload] & Hitems).
  { vm_compute. reflexivity. }
  vm_compute in Hload. injection Hload as <- <- <- <-.
  destruct Hitems as (id & Hid & ->); [vm_compute; reflexivity|].
  vm_compute in Hid. injection Hid as <-.
  vm_compute. reflexivity.
Defined.

(** C7.  In a returned [Document] every item has an id, and items at
    different positions have different ids. *)
Theorem chunk_ids_pairwise_distinct cfg ext file w d w' :
  load_split_count cfg ext file w = (inr d, w') →
  ∀ i j a b,
    Document.items d !! i = Some a →
    Document.items d !! j = Some b →
    i ≠ j →
    is_Some (DocumentItem.metadata a !! lit "id") ∧
    DocumentItem.metadata a !! lit "id" ≠ DocumentItem.metadata b !! lit "id".
Proof.
  intros Hrun i j a b Ha Hb Hij.
  apply load_split_count_inr in Hrun as (docs & mime & w1 & w2 & Hex & Hc & _).
  apply chunker_inr in Hc as (doc & rest & -> & Hcases).
  destruct Hcases as [(_ & -> & _)|(_ & _ & source & data & _ & _ & ->)];
    simpl in *; [done|].
  rewrite list_lookup_imap in Ha, Hb.
  destruct (chunks_of cfg ext doc !! i) as [ti|]; [|done].
  destruct (chunks_of cfg ext doc !! j) as [tj|]; [|done].
  simplify_eq/=. rewrite !lookup_singleton_eq. split; [eauto|].
  intros [= Heq]. apply app_inv_head in Heq. injection Heq as Heq.
  apply lit_inj in Heq. by apply (inj pretty) in Heq.
Qed.

Lemma chunk_ids_pairwise_distinct_witness :
  ∃ d w',
    load_split_count toy.cfg toy.ext (toy.ascii_bytes "<p>hello world")
      toy.boot = (inr d, w') ∧
    ∀ i j a b,
      Document.items d !! i = Some a →
      Document.items d !! j = Some b →
      i ≠ j →
      is_Some (DocumentItem.metadata a !! lit "id") ∧
      DocumentItem.metadata a !! lit "id" ≠ DocumentItem.metadata b !! lit "id".
Proof.
  eexists _, _. split; [vm_compute; reflexivity|].
  eapply (chunk_ids_pairwise_distinct toy.cfg toy.ext
            (toy.ascii_bytes "<p>hello world") toy.boot).
  vm_compute. reflexivity.
Defined.

(** C9.  A returned [Document] has no items or at least two: in the
    split branch the handler reads [texts[1]] before it builds the items,
    so a split into exactly one chunk ends the request with IndexError. *)
Theorem items_empty_or_at_least_two cfg ext file w :
  (∀ d w',
     load_split_count cfg ext file w = (inr d, w') →
     Document.items d = [] ∨ (2 ≤ length (Document.items d))%nat) ∧
  (∀ doc docs mime w1,
     extracts cfg ext file w (doc :: docs) mime w1 →
     count_tokens ext (page_content doc) > chunk_size cfg →
     length (chunks_of cfg ext doc) = 1%nat →
     ∃ w', load_split_count cfg ext file w = (inl IndexError, w')).
Proof.
  split.
  - intros d w' Hrun.
    apply load_split_count_inr in Hrun as (docs & mime & w1 & w2 & Hex & Hc & _).
    apply chunker_inr in Hc as (doc & rest & -> & Hcases).
    destruct Hcases as [(_ & -> & _)|(_ & Hlen & source & data & _ & _ & ->)];
      simpl; [by left|right].
    by rewrite length_imap.
  - intros doc docs mime w1 Hex Hgt Hone.
    rewrite (load_split_count_extracted _ _ _ _ _ _ _ Hex).
    rewrite chunker_large by done. simpl.
    rewrite lookup_ge_None_2 by lia. simpl. eauto.
Qed.

Lemma items_empty_or_at_least_two_witness :
  (∃ d w',
     load_split_count toy.cfg toy.ext (toy.ascii_bytes "<p>hello world")
       toy.boot = (inr d, w') ∧
     (Document.items d = [] ∨ (2 ≤ length (Document.items d))%nat)) ∧
  (∃ w', load_split_count toy.cfg toy.ext_whole (toy.ascii_bytes "hello")
           toy.boot = (inl IndexError, w')).
Proof.
  split.
  - eexists _, _. split; [vm_compute; reflexivity|].
    eapply (proj1 (items_empty_or_at_least_two toy.cfg toy.ext
                     (toy.ascii_bytes "<p>hello world") toy.boot)).
    vm_compute. reflexivity.
  - eapply (proj2 (items_empty_or_at_least_two toy.cfg toy.ext_whole
                     (toy.ascii_bytes "hello") toy.boot)
              (LCDoc (lit "hello") {[ lit "source" := lit "/tmp/tmp0" ]})
              [] (lit "text/plain")).
    + split; vm_compute; reflexivity.
    + vm_compute. reflexivity.
    + reflexivity.
Defined.

(** ** Further properties: get_doc_id *)

Lemma lit_of_list_ascii l :
  lit (String.string_of_list_ascii l) = N_of_ascii <$> l.
Proof. unfold lit. by rewrite String.list_ascii_of_string_of_list_ascii. Qed.

Lemma hex_digit_is_hex x : is_hex (N_of_ascii (hashlib.hex_digit x)).
Proof.
  unfold is_hex, hashlib.hex_digit, lit.
  apply list_elem_of_fmap_2.
  destruct (nth_in_or_default (Z.to_nat x)
              (String.list_ascii_of_string "0123456789abcdef") "0"%char)
    as [Hin| ->].
  - by apply list_elem_of_In.
  - apply list_elem_of_In. simpl. auto.
Qed.

Lemma le_bytes_length n x : length (hashlib.le_bytes n x) = n.
Proof. revert x. induction n as [|n IH]; intros x; simpl; [done|]. by rewrite IH. Qed.

Lemma md5_digest_length msg : length (hashlib.md5_digest msg) = 16%nat.
Proof.
  unfold hashlib.md5_digest.
  destruct (foldl _ _ _) as [a b c d].
  by rewrite !length_app, !le_bytes_length.
Qed.

Lemma hexdigest_length h : length (hashlib.hexdigest h) = 32%nat.
Proof.
  unfold hashlib.hexdigest, hashlib.hex_of_bytes.
  rewrite lit_of_list_ascii, length_fmap.
  assert (∀ bs : list Z,
            length (bs ≫= λ b, [hashlib.hex_digit (b / 16);
                                 hashlib.hex_digit (b mod 16)])
            = (2 * length bs)%nat) as Hpairs.
  { induction bs as [|b bs IH]; [done|].
    rewrite bind_cons, length_app, IH. simpl. lia. }
  rewrite Hpairs, md5_digest_length. done.
Qed.

Lemma hexdigest_is_hex h : Forall is_hex (hashlib.hexdigest h).
Proof.
  unfold hashlib.hexdigest, hashlib.hex_of_bytes.
  rewrite lit_of_list_ascii.
  induction (hashlib.md5_digest h) as [|b bs IH]; [constructor|].
  rewrite bind_cons, fmap_app. apply Forall_app. split; [|done].
  simpl. apply Forall_cons_2; [apply hex_digit_is_hex|].
  apply Forall_cons_2; [apply hex_digit_is_hex|]. apply Forall_nil_2.
Qed.

(** Every id that [get_doc_id] returns has exactly 12 characters, each
    one of 0-9 a-f. *)
Theorem get_doc_id_shape doc w id w' :
  get_doc_id doc w = (inr id, w') →
  length id = 12%nat ∧ Forall is_hex id.
Proof.
  intros Hrun.
  apply get_doc_id_inv in Hrun as (source & data & _ & _ & -> & _).
  split.
  - rewrite length_take, hexdigest_length. lia.
  - apply Forall_take, hexdigest_is_hex.
Qed.

Lemma get_doc_id_shape_witness :
  let doc := LCDoc (lit "text") {[ lit "source" := lit "/tmp/tmp0" ]} in
  length (lit "67f0d1bce47d") = 12%nat ∧ Forall is_hex (lit "67f0d1bce47d").
Proof.
  intros doc.
  eapply (get_doc_id_shape doc toy.boot (lit "67f0d1bce47d")).
  vm_compute. reflexivity.
Defined.

Lemma utf8_encode_char_None c :
  utf8_encode_char c = None ↔ not_encodable c.
Proof.
  unfold utf8_encode_char, not_encodable, is_surrogate.
  destruct (N.ltb_spec c 0x80); [|destruct (N.ltb_spec c 0x800);
    [|destruct (N.ltb_spec c 0x10000); [|destruct (N.ltb_spec c 0x110000)]]].
  - split; [done|]. intros [Hs|?]; [|lia].
    apply andb_true_iff in Hs as [?%N.leb_le _]. lia.
  - split; [done|]. intros [Hs|?]; [|lia].
    apply andb_true_iff in Hs as [?%N.leb_le _]. lia.
  - destruct (_ && _) eqn:Hs; split; try done; auto.
    intros [?|?]; [done|lia].
  - split; [done|]. intros [Hs|?]; [|lia].
    apply andb_true_iff in Hs as [_ ?%N.leb_le]. lia.
  - split; [auto|done].
Qed.

Lemma utf8_encode_None s :
  utf8_encode s = None ↔ Exists not_encodable s.
Proof.
  induction s as [|c s IH]; simpl.
  - split; [done|]. by intros ?%Exists_nil.
  - rewrite Exists_cons, <- IH, <- utf8_encode_char_None.
    destruct (utf8_encode_char c), (utf8_encode s); intuition congruence.
Qed.

(** [get_doc_id] raises KeyError exactly when the metadata has no
    'source', UnicodeEncodeError exactly when the source holds a code
    point UTF-8 cannot encode, and nothing else; whenever it raises, the
    world, the shared [md5] object included, is as before the call. *)
Theorem get_doc_id_errors doc w :
  ((get_doc_id doc w).1 = inl KeyError
   ↔ lc_metadata doc !! lit "source" = None) ∧
  ((get_doc_id doc w).1 = inl UnicodeEncodeError
   ↔ ∃ source, lc_metadata doc !! lit "source" = Some source ∧
               Exists not_encodable source) ∧
  (∀ e, (get_doc_id doc w).1 = inl e →
        (e = KeyError ∨ e = UnicodeEncodeError) ∧ (get_doc_id doc w).2 = w).
Proof.
  unfold get_doc_id. run_monad.
  destruct (lc_metadata doc !! lit "source") as [source|] eqn:Hs; simpl.
  - destruct (utf8_encode source) as [data|] eqn:Hd; simpl.
    + assert (¬ Exists not_encodable source) as Hok.
      { rewrite <- utf8_encode_None. congruence. }
      split; [done|]. split; [|done].
      split; [done|]. by intros (? & [= <-] & ?).
    + apply utf8_encode_None in Hd.
      split; [done|]. split.
      * split; [eauto|done].
      * intros e [= <-]. auto.
  - split; [done|]. split.
    + split; [done|]. by intros (? & ? & _).
    + intros e [= <-]. auto.
Qed.

Lemma get_doc_id_errors_witness :
  (get_doc_id (LCDoc (lit "text") ∅) toy.boot).1 = inl KeyError ∧
  (get_doc_id (LCDoc (lit "text") {[ lit "source" := [0x2F; 0xDC80]%N ]})
     toy.boot).1 = inl UnicodeEncodeError.
Proof.
  split.
  - apply (proj1 (get_doc_id_errors (LCDoc (lit "text") ∅) toy.boot)).
    reflexivity.
  - apply (proj1 (proj2 (get_doc_id_errors
             (LCDoc (lit "text") {[ lit "source" := [0x2F; 0xDC80]%N ]})
             toy.boot))).
    eexists. split; [reflexivity|].
    apply Exists_cons_tl, Exists_cons_hd. left. reflexivity.
Defined.

(** Two successful calls in a row: the second id is the digest prefix of
    everything the object had been fed, then the first source, then the
    second; the boundary between the two sources leaves no trace. *)
Theorem get_doc_id_twice doc1 doc2 source1 source2 data1 data2 w :
  lc_metadata doc1 !! lit "source" = Some source1 →
  lc_metadata doc2 !! lit "source" = Some source2 →
  utf8_encode source1 = Some data1 →
  utf8_encode source2 = Some data2 →
  (id1 ← get_doc_id doc1; id2 ← get_doc_id doc2; mret (id1, id2)) w
  = (inr (take 12 (hashlib.hexdigest (md5 w ++ data1)),
          take 12 (hashlib.hexdigest (md5 w ++ data1 ++ data2))),
     set_md5 (md5 w ++ data1 ++ data2) w).
Proof.
  intros Hs1 Hs2 Hd1 Hd2. rewrite run_bind.
  rewrite (get_doc_id_run _ _ _ _ Hs1 Hd1), run_bind.
  rewrite (get_doc_id_run _ _ _ _ Hs2 Hd2).
  destruct w; unfold set_md5; simpl. by rewrite <- app_assoc.
Qed.

Lemma get_doc_id_twice_witness :
  let doc1 := LCDoc (lit "a") {[ lit "source" := lit "/tmp/a" ]} in
  let doc2 := LCDoc (lit "b") {[ lit "source" := lit "b" ]} in
  (id1 ← get_doc_id doc1; id2 ← get_doc_id doc2; mret (id1, id2)) toy.boot
  = (inr (take 12 (hashlib.hexdigest (toy.ascii_bytes "/tmp/a")),
          take 12 (hashlib.hexdigest
                     (toy.ascii_bytes "/tmp/a" ++ toy.ascii_bytes "b"))),
     set_md5 (toy.ascii_bytes "/tmp/a" ++ toy.ascii_bytes "b") toy.boot).
Proof.
  intros doc1 doc2.
  apply (get_doc_id_twice doc1 doc2 (lit "/tmp/a") (lit "b")
           (toy.ascii_bytes "/tmp/a") (toy.ascii_bytes "b") toy.boot);
    reflexivity.
Defined.

(** ** Further properties: is_gz_file and load *)

(** On an existing file [is_gz_file] answers True exactly when the file
    begins with the bytes 1f 8b, and changes nothing. *)
Theorem is_gz_file_true_iff file_path content w :
  fs w !! file_path = Some content →
  ∃ b, is_gz_file file_path w = (inr b, w) ∧
       (b = true ↔ ∃ rest, content = x1f :: x8b :: rest).
Proof.
  intros Hw. rewrite (is_gz_file_run _ _ _ Hw). eexists. split; [done|].
  rewrite bool_decide_eq_true. split.
  - destruct content as [|b1 [|b2 rest]]; simpl; try done.
    intros [= -> ->]. eauto.
  - by intros [rest ->].
Qed.

Lemma is_gz_file_true_iff_witness :
  let path := lit "/tmp/tmp0" in
  let w := World {[ path := [x1f; x8b; x08] ]} hashlib.new [] [] in
  ∃ b, is_gz_file path w = (inr b, w) ∧
       (b = true ↔ ∃ rest, [x1f; x8b; x08] = x1f :: x8b :: rest).
Proof.
  intros path w.
  apply (is_gz_file_true_iff path [x1f; x8b; x08] w). reflexivity.
Defined.

(** A path that names no file: [is_gz_file] and [load] raise
    FileNotFoundError before any library is called. *)
Lemma load_missing_file_aux cfg ext file_name w :
  fs w !! file_name = None →
  load cfg ext file_name w = (inl FileNotFoundError, w).
Proof.
  intros Hw. unfold load, is_gz_file, read_file. run_monad. by rewrite Hw.
Qed.

Theorem load_missing_file cfg ext file_name w :
  fs w !! file_name = None →
  is_gz_file file_name w = (inl FileNotFoundError, w) ∧
  load cfg ext file_name w = (inl FileNotFoundError, w).
Proof.
  intros Hw. unfold load, is_gz_file, read_file. run_monad. by rewrite Hw.
Qed.

Lemma load_missing_file_witness :
  is_gz_file (lit "/nowhere") toy.boot = (inl FileNotFoundError, toy.boot) ∧
  load toy.cfg toy.ext (lit "/nowhere") toy.boot
  = (inl FileNotFoundError, toy.boot).
Proof.
  apply (load_missing_file toy.cfg toy.ext (lit "/nowhere") toy.boot).
  reflexivity.
Defined.

Lemma load_gz_unfold cfg ext file_name content w :
  fs w !! file_name = Some content →
  take 2 content = [x1f; x8b] →
  fs w !! mkstemp ext (fs w) = None →
  load cfg ext file_name w
  = let tmp := mkstemp ext (fs w) in
    let w1 := log_call (CallGzip file_name)
                (log_stdout (lit "The " ++ file_name
                             ++ lit " is gzip compressed.") w) in
    let w2 := set_fs (insert tmp (gzip_read ext content).1) w1 in
    let close := λ w', if delete_temp_file cfg
                       then set_fs (delete tmp) w' else w' in
    match (gzip_read ext content).2 with
    | Some e => (inl e, close w2)
    | None =>
        match loader_load ext tmp (gzip_read ext content).1 with
        | inl e => (inl e, close (log_call (CallLoader tmp) w2))
        | inr docs =>
            (inr (docs, magic_from_file ext (gzip_read ext content).1),
             close (log_call (CallMagic tmp) (log_call (CallLoader tmp) w2)))
        end
    end.
Proof.
  intros Hw Hmagic Hfresh. unfold load. rewrite run_bind.
  rewrite (is_gz_file_run _ _ _ Hw), bool_decide_eq_true_2 by done.
  unfold NamedTemporaryFile, UnstructuredFileLoader_load, get_mime_type,
    read_file, write, flush, print.
  run_monad. simpl. rewrite Hw. simpl. rewrite Hfresh.
  destruct (gzip_read ext content) as [data err].
  destruct w as [files h out cs]. unfold set_fs, log_call, log_stdout.
  simpl in *. rewrite !lookup_insert_eq, insert_insert_eq. simpl.
  destruct err as [e|]; simpl; [done|].
  rewrite !lookup_insert_eq.
  destruct (loader_load ext (mkstemp ext files) data); simpl; [done|].
  by rewrite !lookup_insert_eq.
Qed.

Lemma load_gz_name_taken cfg ext file_name content w other :
  fs w !! file_name = Some content →
  take 2 content = [x1f; x8b] →
  fs w !! mkstemp ext (fs w) = Some other →
  load cfg ext file_name w
  = (inl FileExistsError,
     log_call (CallGzip file_name)
       (log_stdout (lit "The " ++ file_name ++ lit " is gzip compressed.") w)).
Proof.
  intros Hw Hmagic Htaken. unfold load. rewrite run_bind.
  rewrite (is_gz_file_run _ _ _ Hw), bool_decide_eq_true_2 by done.
  unfold NamedTemporaryFile, read_file, print.
  run_monad. simpl. rewrite Hw. simpl. by rewrite Htaken.
Qed.

(** A gzip upload is decompressed into a second temporary file, and it
    is that file the loader and the MIME sniffer are run on: the
    documents and the MIME type are those of the decompressed bytes under
    the new file's name.  The second file is removed again when
    [delete_temp_file] is set and stays behind otherwise. *)
Theorem load_gzip_extracts_decompressed cfg ext file_name content data w :
  fs w !! file_name = Some content →
  take 2 content = [x1f; x8b] →
  fs w !! mkstemp ext (fs w) = None →
  gzip_read ext content = (data, None) →
  (load cfg ext file_name w).1
  = match loader_load ext (mkstemp ext (fs w)) data with
    | inl e => inl e
    | inr docs => inr (docs, magic_from_file ext data)
    end ∧
  fs (load cfg ext file_name w).2
  = if delete_temp_file cfg then fs w
    else <[mkstemp ext (fs w) := data]> (fs w).
Proof.
  intros Hw Hmagic Hfresh Hgz.
  rewrite (load_gz_unfold _ _ _ _ _ Hw Hmagic Hfresh), Hgz. simpl.
  destruct w as [files h out cs]; simpl in *.
  destruct (loader_load ext (mkstemp ext files) data);
    destruct (delete_temp_file cfg); simpl;
    rewrite ?delete_insert_id by done; done.
Qed.

Lemma load_gzip_extracts_decompressed_witness :
  let path := lit "/tmp/up" in
  let w := World {[ path := [x1f; x8b; x68; x69] ]} hashlib.new [] [] in
  (load toy.cfg toy.ext path w).1
  = match loader_load toy.ext (mkstemp toy.ext (fs w)) [x68; x69] with
    | inl e => inl e
    | inr docs => inr (docs, magic_from_file toy.ext [x68; x69])
    end ∧
  fs (load toy.cfg toy.ext path w).2
  = if delete_temp_file toy.cfg then fs w
    else <[mkstemp toy.ext (fs w) := [x68; x69]]> (fs w).
Proof.
  intros path w.
  apply (load_gzip_extracts_decompressed toy.cfg toy.ext path
           [x1f; x8b; x68; x69] [x68; x69] w); vm_compute; reflexivity.
Defined.

(** When the gzip stream ends in an error, [load] raises that error and
    the loader is never called; the bytes decompressed up to the error
    are left in the second temporary file unless [delete_temp_file] is
    set. *)
Theorem load_gzip_error cfg ext file_name content data e w :
  fs w !! file_name = Some content →
  take 2 content = [x1f; x8b] →
  fs w !! mkstemp ext (fs w) = None →
  gzip_read ext content = (data, Some e) →
  (load cfg ext file_name w).1 = inl e ∧
  calls (load cfg ext file_name w).2 = calls w ++ [CallGzip file_name] ∧
  fs (load cfg ext file_name w).2
  = if delete_temp_file cfg then fs w
    else <[mkstemp ext (fs w) := data]> (fs w).
Proof.
  intros Hw Hmagic Hfresh Hgz.
  rewrite (load_gz_unfold _ _ _ _ _ Hw Hmagic Hfresh), Hgz. simpl.
  destruct w as [files h out cs]; simpl in *.
  destruct (delete_temp_file cfg); simpl;
    rewrite ?delete_insert_id by done; done.
Qed.

Lemma load_gzip_error_witness :
  let path := lit "/tmp/up" in
  let w := World {[ path := [x1f; x8b; x68; x69; x21; x21] ]}
             hashlib.new [] [] in
  (load (Config false 4 0) toy_ext_truncated path w).1
  = inl (LibraryError "EOFError") ∧
  calls (load (Config false 4 0) toy_ext_truncated path w).2
  = calls w ++ [CallGzip path] ∧
  fs (load (Config false 4 0) toy_ext_truncated path w).2
  = if delete_temp_file (Config false 4 0) then fs w
    else <[mkstemp toy_ext_truncated (fs w) := [x68; x69; x21]]> (fs w).
Proof.
  intros path w.
  apply (load_gzip_error (Config false 4 0) toy_ext_truncated path
           [x1f; x8b; x68; x69; x21; x21] [x68; x69; x21]
           (LibraryError "EOFError") w); vm_compute; reflexivity.
Defined.

(** ** Further properties: files *)

Lemma load_cases cfg ext file_name w :
  load cfg ext file_name w = (inl FileNotFoundError, w) ∨
  (∃ content, load cfg ext file_name w
              = load_plain_outcome ext file_name content w) ∨
  (∃ line, load cfg ext file_name w
           = (inl FileExistsError,
              log_call (CallGzip file_name) (log_stdout line w))) ∨
  (∃ r line cs data,
     fs w !! mkstemp ext (fs w) = None ∧
     load cfg ext file_name w
     = (r, if delete_temp_file cfg
           then World (delete (mkstemp ext (fs w))
                         (<[mkstemp ext (fs w) := data]> (fs w)))
                  (md5 w) (stdout w ++ [line]) (calls w ++ cs)
           else World (<[mkstemp ext (fs w) := data]> (fs w))
                  (md5 w) (stdout w ++ [line]) (calls w ++ cs))).
Proof.
  destruct (fs w !! file_name) as [content|] eqn:Hw.
  - destruct (decide (take 2 content = [x1f; x8b])) as [Hmagic|Hmagic].
    + destruct (fs w !! mkstemp ext (fs w)) as [other|] eqn:Hfresh.
      * right; right; left. eexists.
        by rewrite (load_gz_name_taken _ _ _ _ _ _ Hw Hmagic Hfresh).
      * right; right; right.
        rewrite (load_gz_unfold _ _ _ _ _ Hw Hmagic Hfresh). simpl.
        set (line := lit "The " ++ file_name ++ lit " is gzip compressed.").
        set (tmp := mkstemp ext (fs w)) in *.
        destruct (gzip_read ext content) as [data [e|]]; simpl.
        { exists (inl e), line, [CallGzip file_name], data.
          split; [done|].
          destruct w; unfold set_fs, log_call, log_stdout; simpl.
          by destruct (delete_temp_file cfg). }
        destruct (loader_load ext tmp data) as [e|docs].
        { exists (inl e), line, [CallGzip file_name; CallLoader tmp], data.
          split; [done|].
          destruct w; unfold set_fs, log_call, log_stdout; simpl.
          rewrite <- !app_assoc. by destruct (delete_temp_file cfg). }
        { exists (inr (docs, magic_from_file ext data)), line,
            [CallGzip file_name; CallLoader tmp; CallMagic tmp], data.
          split; [done|].
          destruct w; unfold set_fs, log_call, log_stdout; simpl.
          rewrite <- !app_assoc. by destruct (delete_temp_file cfg). }
    + right; left. exists content. by apply load_not_gz.
  - left. by apply load_missing_file_aux.
Qed.

Lemma load_fs_delete cfg ext file_name w :
  delete_temp_file cfg = true →
  fs (load cfg ext file_name w).2 = fs w.
Proof.
  intros Hdel.
  destruct (load_cases cfg ext file_name w)
    as [->|[[content ->]|[[line ->]|(r & line & cs & data & Hfresh & ->)]]];
    try done.
  - unfold load_plain_outcome. by destruct (loader_load _ _ _).
  - rewrite Hdel. simpl. by apply delete_insert_id.
Qed.

Lemma load_fs_existing cfg ext file_name w path :
  is_Some (fs w !! path) →
  fs (load cfg ext file_name w).2 !! path = fs w !! path.
Proof.
  intros Hsome.
  destruct (load_cases cfg ext file_name w)
    as [->|[[content ->]|[[line ->]|(r & line & cs & data & Hfresh & ->)]]];
    try done.
  - unfold load_plain_outcome. by destruct (loader_load _ _ _).
  - assert (mkstemp ext (fs w) ≠ path) as Hne.
    { intros <-. rewrite Hfresh in Hsome. by destruct Hsome. }
    destruct (delete_temp_file cfg); simpl.
    + by rewrite delete_insert_id.
    + by rewrite lookup_insert_ne.
Qed.

Lemma get_doc_id_frame doc w :
  fs (get_doc_id doc w).2 = fs w ∧
  calls (get_doc_id doc w).2 = calls w.
Proof.
  unfold get_doc_id. run_monad.
  destruct (lc_metadata doc !! lit "source") as [source|]; [|done].
  by destruct (utf8_encode source).
Qed.

Lemma chunker_fs cfg ext loaded w :
  fs (chunker cfg ext loaded w).2 = fs w.
Proof.
  destruct loaded as [[|doc rest] mime]; [by rewrite chunker_no_docs|].
  destruct (decide (count_tokens ext (page_content doc) > chunk_size cfg)).
  - rewrite chunker_large by done. simpl.
    destruct (chunks_of cfg ext doc !! 1%nat) as [second|]; [|done].
    match goal with
    | |- context [get_doc_id doc ?w0] =>
        pose proof (get_doc_id_frame doc w0) as [Hfs _];
        destruct (get_doc_id doc w0) as [[e|id] w2]
    end; simpl in *; by rewrite Hfs.
  - by rewrite chunker_small by lia.
Qed.

Lemma receive_and_load_unfold cfg ext temp file w before :
  fs w !! temp = Some before →
  receive_and_load cfg ext temp file w
  = load cfg ext temp (set_fs (insert temp (before ++ file)) w).
Proof.
  intros Hw. unfold receive_and_load, flush. rewrite run_bind.
  by rewrite (copy_upload_run _ _ _ _ _ (Nat.lt_succ_diag_r _) Hw).
Qed.

Lemma load_split_count_unfold cfg ext file w :
  load_split_count cfg ext file w
  = let temp := mkstemp ext (fs w) in
    match fs w !! temp with
    | Some _ => (inl FileExistsError, w)
    | None =>
        let body := (receive_and_load cfg ext temp file ≫= chunker cfg ext)
                      (set_fs (insert temp []) w) in
        (body.1, close_temp cfg ext w body.2)
    end.
Proof.
  unfold load_split_count, NamedTemporaryFile, close_temp. simpl.
  destruct (fs w !! mkstemp ext (fs w)); [done|].
  by destruct (_ ≫= _).
Qed.

(** Inside the handler, once the temporary file has been created empty:
    where the file system stands when the body of the [with] block ends,
    however it ends. *)
Lemma handler_body_fs cfg ext temp file w0 :
  fs w0 !! temp = Some [] →
  let w' := ((receive_and_load cfg ext temp file ≫= chunker cfg ext) w0).2 in
  fs w' !! temp = Some file ∧
  (∀ path, is_Some (fs w0 !! path) → path ≠ temp →
           fs w' !! path = fs w0 !! path) ∧
  (delete_temp_file cfg = true → fs w' = <[temp := file]> (fs w0)).
Proof.
  intros Hw0. simpl. rewrite run_bind.
  rewrite (receive_and_load_unfold _ _ _ _ _ [] Hw0). simpl.
  set (w1 := set_fs (insert temp file) w0).
  assert (fs w1 = <[temp := file]> (fs w0)) as Hw1 by (by destruct w0).
  assert (fs (match load cfg ext temp w1 with
              | (inl e, w') => (inl e, w')
              | (inr a, w') => chunker cfg ext a w'
              end).2 = fs (load cfg ext temp w1).2) as ->.
  { destruct (load cfg ext temp w1) as [[e|loaded] w2]; [done|].
    apply chunker_fs. }
  split; [|split].
  - rewrite load_fs_existing; rewrite Hw1, lookup_insert_eq; eauto.
  - intros path Hsome Hne.
    rewrite load_fs_existing; rewrite Hw1, lookup_insert_ne; done.
  - intros Hdel. by rewrite load_fs_delete.
Qed.

(** With [delete_temp_file] set, the handler leaves the file system
    exactly as it found it, on every exit path: a returned [Document],
    an exception from extraction, the splitter branch or [get_doc_id],
    or a temporary name that is already taken. *)
Theorem handler_restores_files cfg ext file w :
  delete_temp_file cfg = true →
  fs (load_split_count cfg ext file w).2 = fs w.
Proof.
  intros Hdel. rewrite load_split_count_unfold. cbv zeta.
  destruct (fs w !! mkstemp ext (fs w)) eqn:Hfresh; [done|].
  unfold close_temp. rewrite Hdel.
  pose proof (handler_body_fs cfg ext (mkstemp ext (fs w)) file
                (set_fs (insert (mkstemp ext (fs w)) []) w)) as Hbody.
  cbv zeta in Hbody.
  destruct ((receive_and_load cfg ext (mkstemp ext (fs w)) file
             ≫= chunker cfg ext) _) as [r w'].
  destruct Hbody as (_ & _ & Hfs).
  { destruct w; simpl. by rewrite lookup_insert_eq. }
  destruct w, w'; simpl in *. rewrite Hfs by done.
  by rewrite insert_insert_eq, delete_insert_id.
Qed.

Lemma handler_restores_files_witness :
  fs (load_split_count toy.cfg toy.ext (toy.ascii_bytes "<p>hello world")
        toy.boot).2 = fs toy.boot.
Proof.
  apply (handler_restores_files toy.cfg toy.ext
           (toy.ascii_bytes "<p>hello world") toy.boot).
  reflexivity.
Defined.

(** Without [delete_temp_file], the handler leaves the whole upload
    behind in its temporary file, whether it returned a [Document] or
    raised. *)
Theorem handler_leaves_upload cfg ext file w :
  delete_temp_file cfg = false →
  fs w !! mkstemp ext (fs w) = None →
  fs (load_split_count cfg ext file w).2 !! mkstemp ext (fs w) = Some file.
Proof.
  intros Hdel Hfresh. rewrite load_split_count_unfold.
  cbv zeta. rewrite Hfresh. unfold close_temp. rewrite Hdel.
  pose proof (handler_body_fs cfg ext (mkstemp ext (fs w)) file
                (set_fs (insert (mkstemp ext (fs w)) []) w)) as Hbody.
  cbv zeta in Hbody.
  destruct ((receive_and_load cfg ext (mkstemp ext (fs w)) file
             ≫= chunker cfg ext) _) as [r w'].
  destruct Hbody as (Htemp & _ & _); [|done].
  destruct w; simpl. by rewrite lookup_insert_eq.
Qed.

Lemma handler_leaves_upload_witness :
  fs (load_split_count (Config false 4 0) toy.ext_nothing
        (toy.ascii_bytes "hello") toy.boot).2
    !! mkstemp toy.ext_nothing (fs toy.boot)
  = Some (toy.ascii_bytes "hello").
Proof.
  apply (handler_leaves_upload (Config false 4 0) toy.ext_nothing
           (toy.ascii_bytes "hello") toy.boot); vm_compute; reflexivity.
Defined.

(** The handler never changes or removes a file that existed before the
    request. *)
Theorem handler_keeps_existing_files cfg ext file w path :
  is_Some (fs w !! path) →
  fs (load_split_count cfg ext file w).2 !! path = fs w !! path.
Proof.
  intros Hsome. rewrite load_split_count_unfold. cbv zeta.
  destruct (fs w !! mkstemp ext (fs w)) eqn:Hfresh; [done|].
  assert (path ≠ mkstemp ext (fs w)) as Hne.
  { intros ->. rewrite Hfresh in Hsome. by destruct Hsome. }
  pose proof (handler_body_fs cfg ext (mkstemp ext (fs w)) file
                (set_fs (insert (mkstemp ext (fs w)) []) w)) as Hbody.
  cbv zeta in Hbody.
  destruct ((receive_and_load cfg ext (mkstemp ext (fs w)) file
             ≫= chunker cfg ext) _) as [r w'].
  destruct Hbody as (_ & Hkeep & _).
  { destruct w; simpl. by rewrite lookup_insert_eq. }
  specialize (Hkeep path).
  assert (fs (set_fs (insert (mkstemp ext (fs w)) []) w) !! path
          = fs w !! path) as Hw0.
  { destruct w; simpl. by rewrite lookup_insert_ne. }
  rewrite Hw0 in Hkeep. specialize (Hkeep Hsome Hne).
  unfold close_temp. destruct (delete_temp_file cfg); [|done].
  destruct w'; simpl in *. by rewrite lookup_delete_ne.
Qed.

Lemma handler_keeps_existing_files_witness :
  let w := World {[ lit "/etc/motd" := toy.ascii_bytes "hi" ]}
             hashlib.new [] [] in
  fs (load_split_count toy.cfg toy.ext (toy.ascii_bytes "hello") w).2
    !! lit "/etc/motd" = fs w !! lit "/etc/motd".
Proof.
  intros w.
  apply (handler_keeps_existing_files toy.cfg toy.ext
           (toy.ascii_bytes "hello") w (lit "/etc/motd")).
  vm_compute. eauto.
Defined.

(** The upload loop: whatever the length of the upload against the 1 MiB
    read size, receiving it appends exactly the uploaded bytes, in
    order, to the temporary file before [load] runs. *)
Theorem upload_is_received_verbatim cfg ext temp file w before :
  fs w !! temp = Some before →
  receive_and_load cfg ext temp file w
  = load cfg ext temp (set_fs (insert temp (before ++ file)) w).
Proof. apply receive_and_load_unfold. Qed.

Lemma upload_is_received_verbatim_witness :
  let temp := lit "/tmp/tmp0" in
  let w := World {[ temp := [] ]} hashlib.new [] [] in
  receive_and_load toy.cfg toy.ext temp (toy.ascii_bytes "hello") w
  = load toy.cfg toy.ext temp
      (set_fs (insert temp ([] ++ toy.ascii_bytes "hello")) w).
Proof.
  intros temp w.
  apply (upload_is_received_verbatim toy.cfg toy.ext temp
           (toy.ascii_bytes "hello") w []).
  reflexivity.
Defined.

(** ** Further properties: the chunker and the handler *)

(** Only the first extracted document is read: the documents after it
    change neither the response nor any effect. *)
Theorem chunker_reads_first_document_only cfg ext doc rest mime w :
  chunker cfg ext (doc :: rest, mime) w = chunker cfg ext ([doc], mime) w.
Proof.
  destruct (decide (count_tokens ext (page_content doc) > chunk_size cfg)).
  - by rewrite !chunker_large by done.
  - by rewrite !chunker_small by lia.
Qed.

Lemma load_split_count_cases cfg ext file w :
  load_split_count cfg ext file w = (inl FileExistsError, w) ∨
  (∃ e w1,
     load_split_count cfg ext file w = (inl e, close_temp cfg ext w w1) ∧
     md5 w1 = md5 w ∧ splitter_calls w1 = splitter_calls w) ∨
  (∃ docs mime w1,
     extracts cfg ext file w docs mime w1 ∧
     load_split_count cfg ext file w
     = ((chunker cfg ext (docs, mime) w1).1,
        close_temp cfg ext w (chunker cfg ext (docs, mime) w1).2)).
Proof.
  destruct (fs w !! mkstemp ext (fs w)) as [other|] eqn:Hfresh.
  - left. unfold load_split_count, NamedTemporaryFile. by rewrite Hfresh.
  - right.
    pose proof (receive_and_load_keeps cfg ext (mkstemp ext (fs w)) file
                  (set_fs (insert (mkstemp ext (fs w)) []) w)) as [Hs Hm].
    destruct (receive_and_load cfg ext (mkstemp ext (fs w)) file
                (set_fs (insert (mkstemp ext (fs w)) []) w))
      as [[e|[docs mime]] w1] eqn:Hload.
    + left. exists e, w1. split; [|by destruct w].
      unfold load_split_count, NamedTemporaryFile, close_temp.
      by rewrite Hfresh, run_bind, Hload.
    + right. exists docs, mime, w1.
      assert (extracts cfg ext file w docs mime w1) as Hex by done.
      split; [done|]. by apply load_split_count_extracted.
Qed.

Lemma chunker_effects cfg ext doc rest mime w :
  let r := chunker cfg ext (doc :: rest, mime) w in
  splitter_calls r.2
  = splitter_calls w
    ++ (if decide (count_tokens ext (page_content doc) > chunk_size cfg)
        then [page_content doc] else []) ∧
  match r.1 with
  | inr d =>
      match Document.items d with
      | [] => md5 r.2 = md5 w
      | _ :: _ =>
          ∃ source data,
            lc_metadata doc !! lit "source" = Some source ∧
            utf8_encode source = Some data ∧
            md5 r.2 = md5 w ++ data
      end
  | inl _ => md5 r.2 = md5 w
  end.
Proof.
  cbv zeta.
  destruct (decide (count_tokens ext (page_content doc) > chunk_size cfg)).
  - rewrite chunker_large by done. cbv zeta.
    destruct (chunks_of cfg ext doc !! 1%nat) as [second|] eqn:Hsecond.
    + match goal with
      | |- context [get_doc_id doc ?w0] =>
          pose proof (get_doc_id_frame doc w0) as [_ Hcalls];
          pose proof (proj2 (proj2 (get_doc_id_errors doc w0))) as Herr;
          destruct (get_doc_id doc w0) as [[e|id] w2] eqn:Hid
      end; simpl in *.
      * destruct (Herr e eq_refl) as [_ ->]. split; [|done].
        unfold splitter_calls; simpl. by rewrite omap_app.
      * split.
        { unfold splitter_calls in *. rewrite Hcalls. simpl.
          by rewrite omap_app. }
        apply get_doc_id_inv in Hid as (source & data & Hs & Hd & _ & ->).
        destruct (chunks_of cfg ext doc) as [|t ts]; [done|]. simpl.
        by exists source, data.
    + simpl. split; [|done].
      unfold splitter_calls; simpl. by rewrite omap_app.
  - rewrite chunker_small by lia. simpl. by rewrite app_nil_r.
Qed.

(** In a request whose extraction succeeds, the splitter is called once,
    on the whole text of the first document, when that text has more
    than [chunk_size] tokens, and not at all otherwise; this holds even
    when the request then fails on [texts[1]] or in [get_doc_id]. *)
Theorem splitter_called_once_on_whole_text cfg ext file w doc docs mime w1 :
  extracts cfg ext file w (doc :: docs) mime w1 →
  splitter_calls (load_split_count cfg ext file w).2
  = splitter_calls w
    ++ (if decide (count_tokens ext (page_content doc) > chunk_size cfg)
        then [page_content doc] else []).
Proof.
  intros Hex. rewrite (load_split_count_extracted _ _ _ _ _ _ _ Hex).
  cbn [snd].
  destruct (close_temp_keeps cfg ext w
              (chunker cfg ext (doc :: docs, mime) w1).2) as [-> _].
  destruct (chunker_effects cfg ext doc docs mime w1) as [-> _].
  by destruct (extracts_keeps _ _ _ _ _ _ _ Hex) as [-> _].
Qed.

Lemma splitter_called_once_on_whole_text_witness :
  let doc := LCDoc (lit "hello") {[ lit "source" := lit "/tmp/tmp0" ]} in
  splitter_calls (load_split_count toy.cfg toy.ext_whole
                    (toy.ascii_bytes "hello") toy.boot).2
  = splitter_calls toy.boot
    ++ (if decide (count_tokens toy.ext_whole (page_content doc)
                   > chunk_size toy.cfg)
        then [page_content doc] else []).
Proof.
  intros doc.
  eapply (splitter_called_once_on_whole_text toy.cfg toy.ext_whole
            (toy.ascii_bytes "hello") toy.boot doc [] (lit "text/plain")).
  split; vm_compute; reflexivity.
Defined.

(** The shared [md5] object is fed by a request only when the request
    returns a [Document] with items, and then by the UTF-8 bytes of the
    first document's source; a request that returns no items or raises
    leaves the object as it was. *)
Theorem md5_fed_only_with_items cfg ext file w :
  let r := load_split_count cfg ext file w in
  match r.1 with
  | inr d =>
      match Document.items d with
      | [] => md5 r.2 = md5 w
      | _ :: _ =>
          ∃ doc docs mime w1 source data,
            extracts cfg ext file w (doc :: docs) mime w1 ∧
            lc_metadata doc !! lit "source" = Some source ∧
            utf8_encode source = Some data ∧
            md5 r.2 = md5 w ++ data
      end
  | inl _ => md5 r.2 = md5 w
  end.
Proof.
  cbv zeta.
  destruct (load_split_count_cases cfg ext file w)
    as [->|[(e & w1 & -> & Hm & _)|(docs & mime & w1 & Hex & ->)]].
  - done.
  - cbn [fst snd]. by destruct (close_temp_keeps cfg ext w w1) as [_ ->].
  - cbn [fst snd].
    destruct (close_temp_keeps cfg ext w
                (chunker cfg ext (docs, mime) w1).2) as [_ ->].
    destruct (extracts_keeps _ _ _ _ _ _ _ Hex) as [_ Hm].
    destruct docs as [|doc rest].
    + rewrite chunker_no_docs. by simpl.
    + pose proof (chunker_effects cfg ext doc rest mime w1) as [_ Heff].
      cbv zeta in Heff. rewrite Hm in Heff.
      destruct (chunker cfg ext (doc :: rest, mime) w1) as [[e|d] w2];
        cbn [fst snd] in *; [done|].
      destruct (Document.items d); [done|].
      destruct Heff as (source & data & ? & ? & ?).
      by exists doc, rest, mime, w1, source, data.
Qed.

Lemma md5_fed_only_with_items_witness :
  md5 (load_split_count toy.cfg toy.ext (toy.ascii_bytes "hi") toy.boot).2
  = md5 toy.boot.
Proof.
  exact (md5_fed_only_with_items toy.cfg toy.ext (toy.ascii_bytes "hi")
           toy.boot).
Defined.

(** In every returned [Document], [tokens_count] is the token count of
    the whole first document, split or not, and every item's
    [tokens_count] is the token count of that item's own content; when
    there are items, their contents are the splitter's chunks in order. *)
Theorem token_counts_are_recounted cfg ext file w d w' :
  load_split_count cfg ext file w = (inr d, w') →
  ∃ doc docs mime w1,
    extracts cfg ext file w (doc :: docs) mime w1 ∧
    Document.tokens_count d = count_tokens ext (page_content doc) ∧
    Forall (λ item, DocumentItem.tokens_count item
                    = count_tokens ext (DocumentItem.content item))
           (Document.items d) ∧
    (Document.items d ≠ [] →
     DocumentItem.content <$> Document.items d = chunks_of cfg ext doc).
Proof.
  intros Hrun.
  apply load_split_count_inr in Hrun as (docs & mime & w1 & w2 & Hex & Hc & _).
  apply chunker_inr in Hc as (doc & rest & -> & Hcases).
  exists doc, rest, mime, w1. split; [done|].
  destruct Hcases as [(_ & -> & _)|(_ & _ & source & data & _ & _ & ->)];
    simpl.
  - by repeat split.
  - split; [done|]. split.
    + apply Forall_forall. intros item Hin.
      apply list_elem_of_lookup in Hin as [i Hi].
      rewrite list_lookup_imap in Hi.
      destruct (chunks_of cfg ext doc !! i); by simplify_eq/=.
    + intros _. rewrite fmap_imap. apply list_eq. intros i.
      rewrite list_lookup_imap. by destruct (chunks_of cfg ext doc !! i).
Qed.

Lemma token_counts_are_recounted_witness :
  ∃ d w',
    load_split_count toy.cfg toy.ext (toy.ascii_bytes "<p>hello world")
      toy.boot = (inr d, w') ∧
    Document.tokens_count d = 14 ∧
    DocumentItem.tokens_count <$> Document.items d = [4; 4; 4; 2].
Proof.
  eexists _, _. split; [vm_compute; reflexivity|].
  edestruct (token_counts_are_recounted toy.cfg toy.ext
               (toy.ascii_bytes "<p>hello world") toy.boot)
    as (doc & docs & mime & w1 & [_ Hload] & Htokens & _).
  { vm_compute. reflexivity. }
  vm_compute in Hload. injection Hload as <- <- <- <-.
  split; [exact Htokens|]. vm_compute. reflexivity.
Defined.

Lemma set_fs_insert_twice w path a b :
  set_fs (insert path b) (set_fs (insert path a) w) = set_fs (insert path b) w.
Proof. destruct w; unfold set_fs; simpl. by rewrite insert_insert_eq. Qed.

Lemma receive_and_load_fresh cfg ext temp file w :
  receive_and_load cfg ext temp file (set_fs (insert temp []) w)
  = load cfg ext temp (set_fs (insert temp file) w).
Proof.
  rewrite (receive_and_load_unfold _ _ _ _ _ []).
  - by rewrite set_fs_insert_twice.
  - destruct w; simpl. by rewrite lookup_insert_eq.
Qed.

(** An upload that does not begin with 1f 8b is extracted as it is: the
    handler's extraction step yields what the loader returns for the
    uploaded bytes and the MIME type sniffed from those bytes; and when
    the loader raises, the handler raises the same exception. *)
Theorem plain_upload_extraction cfg ext file w :
  take 2 file ≠ [x1f; x8b] →
  fs w !! mkstemp ext (fs w) = None →
  match loader_load ext (mkstemp ext (fs w)) file with
  | inr docs =>
      ∃ w1, extracts cfg ext file w docs (magic_from_file ext file) w1
  | inl e => (load_split_count cfg ext file w).1 = inl e
  end.
Proof.
  intros Hmagic Hfresh.
  remember (mkstemp ext (fs w)) as temp eqn:Htemp.
  assert (load cfg ext temp (set_fs (insert temp file) w)
          = load_plain_outcome ext temp file (set_fs (insert temp file) w))
    as Hload.
  { apply load_not_gz; [|done]. destruct w; simpl. by rewrite lookup_insert_eq. }
  unfold load_plain_outcome in Hload.
  destruct (loader_load ext temp file) as [e|docs] eqn:Hloader.
  - unfold load_split_count, NamedTemporaryFile. rewrite <- Htemp.
    rewrite Hfresh, run_bind, receive_and_load_fresh, Hload. done.
  - eexists. unfold extracts. rewrite <- Htemp. split; [done|].
    by rewrite receive_and_load_fresh, Hload.
Qed.

Lemma plain_upload_extraction_witness :
  ∃ w1, extracts toy.cfg toy.ext (toy.ascii_bytes "hi") toy.boot
          [LCDoc (lit "hi") {[ lit "source" := lit "/tmp/tmp0" ]}]
          (lit "text/plain") w1.
Proof.
  apply (plain_upload_extraction toy.cfg toy.ext (toy.ascii_bytes "hi")
           toy.boot).
  - vm_compute. discriminate.
  - vm_compute. reflexivity.
Defined.

(** A gzip upload is extracted from its decompressed bytes: the
    handler's extraction step yields what the loader returns for the
    decompressed data, under the name of the second temporary file, and
    the MIME type sniffed from the decompressed data, not from the
    upload. *)
Theorem gzip_upload_extraction cfg ext file w data docs :
  take 2 file = [x1f; x8b] →
  let temp := mkstemp ext (fs w) in
  let inner := mkstemp ext (<[temp := file]> (fs w)) in
  fs w !! temp = None →
  <[temp := file]> (fs w) !! inner = None →
  gzip_read ext file = (data, None) →
  loader_load ext inner data = inr docs →
  ∃ w1, extracts cfg ext file w docs (magic_from_file ext data) w1.
Proof.
  intros Hmagic temp inner Hfresh Hinner Hgz Hloader.
  eexists. unfold extracts. fold temp. split; [done|].
  rewrite receive_and_load_fresh.
  assert (fs (set_fs (insert temp file) w) = <[temp := file]> (fs w)) as Hfs
    by (by destruct w).
  rewrite (load_gz_unfold cfg ext temp file).
  - cbv zeta. rewrite Hfs. fold inner. rewrite Hgz. cbn [fst snd].
    rewrite Hloader. reflexivity.
  - by rewrite Hfs, lookup_insert_eq.
  - done.
  - by rewrite Hfs.
Qed.

Lemma gzip_upload_extraction_witness :
  ∃ w1, extracts toy.cfg toy.ext [x1f; x8b; x68; x69] toy.boot
          [LCDoc (lit "hi") {[ lit "source" := lit "/tmp/tmp1" ]}]
          (lit "text/plain") w1.
Proof.
  apply (gzip_upload_extraction toy.cfg toy.ext [x1f; x8b; x68; x69]
           toy.boot [x68; x69]); vm_compute; reflexivity.
Defined.
